(** * Thai ID card OCR pipeline: a shallow embedding of
      [OCR/ocr_support_file_heic.py] (pytesseract variant) and
      [OCR/ocr_thai_id_card_easyocr.py] (EasyOCR variant).

    The pretrained detectors, the OCR engines, OpenCV and the file system are
    external collaborators: they appear as oracles of an environment record.
    Everything the two Python files compute themselves (slicing, clipping,
    best-of selection, sorting, text clean-up, exception routing) is written
    out as executable definitions. *)

From Stdlib Require Import List ZArith QArith Bool Ascii String Lia.
From Stdlib Require Import Sorted Permutation DecimalString.
Import ListNotations.
Open Scope Z_scope.

Set Implicit Arguments.

(** ** The Python runtime pieces the sources rely on *)

Module Py.

(** A Python [str] value is a sequence of Unicode code points. *)
Definition pystr := list N.

(** Literals: an ASCII Rocq string read as code points. *)
Definition lit (s : string) : pystr := map N_of_ascii (list_ascii_of_string s).

(** [Py_UNICODE_ISSPACE]: the test used by [str.strip()], [str.split()] and
    by [\s] in a [str] pattern. *)
Definition isspace (c : N) : bool :=
  ((9 <=? c) && (c <=? 13) || (28 <=? c) && (c <=? 32)
   || (c =? 133) || (c =? 160) || (c =? 5760)
   || (8192 <=? c) && (c <=? 8202)
   || (c =? 8232) || (c =? 8233) || (c =? 8239) || (c =? 8287)
   || (c =? 12288))%N.

Section Strings.

(** Which code points above ASCII are decimal digits (category Nd) depends on
    the interpreter's Unicode database; on ASCII it is ['0'..'9']. *)
Variable unicode_decimal : N -> bool.

(** [\d] in a [str] pattern. *)
Definition isdecimal (c : N) : bool :=
  (if c <? 128 then (48 <=? c) && (c <=? 57) else unicode_decimal c)%N.

End Strings.

Fixpoint lstrip (s : pystr) : pystr :=
  match s with
  | [] => []
  | c :: s' => if isspace c then lstrip s' else s
  end.

Definition rstrip (s : pystr) : pystr := rev (lstrip (rev s)).

(** [s.strip()] *)
Definition strip (s : pystr) : pystr := rstrip (lstrip s).

(** [s.split()]: the maximal runs of non-whitespace characters.  [cur] holds
    the current run, reversed. *)
Fixpoint split_go (cur : pystr) (s : pystr) : list pystr :=
  match s with
  | [] => match cur with [] => [] | _ => [rev cur] end
  | c :: s' =>
      if isspace c
      then match cur with [] => split_go [] s' | _ => rev cur :: split_go [] s' end
      else split_go (c :: cur) s'
  end.

Definition split (s : pystr) : list pystr := split_go [] s.

(** [sep.join(parts)] *)
Fixpoint join (sep : pystr) (parts : list pystr) : pystr :=
  match parts with
  | [] => []
  | [p] => p
  | p :: ps => p ++ sep ++ join sep ps
  end.

(** [re.sub(r'[...]', '', s)] for a one-character class: drop the characters
    the class matches. *)
Definition re_sub_class (cls : N -> bool) (s : pystr) : pystr :=
  filter (fun c => negb (cls c)) s.

(** Slicing [l[lo:hi]] with Python's treatment of negative and oversized
    bounds. *)
Definition norm_index (n i : Z) : Z :=
  if i <? 0 then Z.max 0 (i + n) else Z.min i n.

Definition slice {A} (lo hi : Z) (l : list A) : list A :=
  let n := Z.of_nat (List.length l) in
  let a := norm_index n lo in
  let b := norm_index n hi in
  firstn (Z.to_nat (b - a)) (skipn (Z.to_nat a) l).

(** A [dict] with [str] keys: insertion-ordered, keys unique. *)
Definition dict (V : Type) := list (string * V).

Fixpoint dict_get {V} (k : string) (d : dict V) : option V :=
  match d with
  | [] => None
  | (k', v) :: d' => if String.eqb k k' then Some v else dict_get k d'
  end.

Definition dict_contains {V} (k : string) (d : dict V) : bool :=
  match dict_get k d with Some _ => true | None => false end.

(** [d[k] = v]: an existing key keeps its position, a new key goes last. *)
Fixpoint dict_set {V} (k : string) (v : V) (d : dict V) : dict V :=
  match d with
  | [] => [(k, v)]
  | (k', v') :: d' =>
      if String.eqb k k' then (k', v) :: d' else (k', v') :: dict_set k v d'
  end.

Definition dict_keys {V} (d : dict V) : list string := map fst d.
Definition dict_values {V} (d : dict V) : list V := map snd d.

(** [float(x)] values that are finite are rationals; [a > b] on them. *)
Definition Qgtb (a b : Q) : bool := negb (Qle_bool a b).

(** [int(x)] and [ndarray.astype(int)]: truncation toward zero.  For
    [int(x)] this is exact everywhere; for [astype(int)], a cast to int64, it
    is exact on values whose truncation fits 64 bits (beyond them the cast is
    platform-dependent), and the properties that depend on the coordinates
    say so. *)
Definition astype_int (q : Q) : Z := Z.quot (Qnum q) (Z.pos (Qden q)).

(** [np.argmax]: index of the first maximal element. [best] is the running
    maximum, [bi] its index, [i] the index of the head of [l]. *)
Fixpoint argmax_go (best : Q) (bi i : nat) (l : list Q) : nat :=
  match l with
  | [] => bi
  | x :: l' => if Qgtb x best then argmax_go x i (S i) l' else argmax_go best bi (S i) l'
  end.

Definition argmax (l : list Q) : nat :=
  match l with
  | [] => 0%nat
  | x :: l' => argmax_go x 0%nat 1%nat l'
  end.

(** [sorted(l, key=...)] with a key that is a pair of integers: a stable
    sort under the lexicographic order, here by insertion. *)
Definition key_le (a b : Z * Z) : bool :=
  (fst a <? fst b) || ((fst a =? fst b) && (snd a <=? snd b)).

Section Sorted.
Variable A : Type.
Variable key : A -> Z * Z.

Fixpoint insert (x : A) (l : list A) : list A :=
  match l with
  | [] => [x]
  | y :: l' => if key_le (key x) (key y) then x :: l else y :: insert x l'
  end.

Fixpoint sorted (l : list A) : list A :=
  match l with
  | [] => []
  | x :: l' => insert x (sorted l')
  end.
End Sorted.

(** [str(n)] for an integer *)
Definition str_of_Z (n : Z) : string := NilZero.string_of_int (Z.to_int n).

End Py.

Import Py.

(** ** Images, detector results, exceptions and the world *)

(** A decoded colour image ([ndarray] of shape h x w x 3): rows of B,G,R
    pixels. *)
Definition pixel := (Z * Z * Z)%type.
Definition image := list (list pixel).

(** [img.shape[0]] and [img.shape[1]] *)
Definition shape0 (img : image) : Z := Z.of_nat (List.length img).
Definition shape1 (img : image) : Z :=
  match img with
  | [] => 0
  | r :: _ => Z.of_nat (List.length r)
  end.

(** [img.size]: the number of array elements. *)
Definition size (img : image) : Z :=
  3 * fold_right (fun r n => Z.of_nat (List.length r) + n) 0 img.

(** [img[y1:y2, x1:x2]] *)
Definition crop (img : image) (y1 y2 x1 x2 : Z) : image :=
  map (slice x1 x2) (slice y1 y2 img).

(** One row of [results[0].boxes]: corner coordinates, confidence and class
    index, all floats as the detector reports them. *)
Record raw_box := { xyxy : Q * Q * Q * Q; conf : Q; cls : Q }.

(** What a detector call returns: a list holding one result for the one
    image passed in, so a value that is truthy whenever it is not [None];
    [boxes r] is [results[0].boxes]. *)
Record Results := { boxes : list raw_box }.

(** [xyxy...astype(int)] *)
Definition box_astype_int (b : Q * Q * Q * Q) : Z * Z * Z * Z :=
  let '(x1, y1, x2, y2) := b in
  (astype_int x1, astype_int y1, astype_int x2, astype_int y2).

(** The dictionaries built by [detect_text_fields]. *)
Record Detection := { box : Z * Z * Z * Z; label : string; confidence : Q }.

(** [d['box'][0]] and [d['box'][1]] *)
Definition box0 (d : Detection) : Z := let '(x1, _, _, _) := box d in x1.
Definition box1 (d : Detection) : Z := let '(_, y1, _, _) := box d in y1.
Definition box2 (d : Detection) : Z := let '(_, _, x2, _) := box d in x2.
Definition box3 (d : Detection) : Z := let '(_, _, _, y2) := box d in y2.

(** Exceptions: FastAPI's [HTTPException] and everything else, kept by its
    message. *)
Inductive exn :=
| HTTPException (status_code : Z) (detail : string)
| Exception (msg : string).

(** [str(e)]; for [HTTPException] this is Starlette's
    ["{status_code}: {detail}"]. *)
Definition str_exn (e : exn) : string :=
  match e with
  | HTTPException c d => (str_of_Z c ++ ": " ++ d)%string
  | Exception m => m
  end.

Inductive outcome (A : Type) :=
| Return (a : A)
| Raise (e : exn).
Arguments Return {A} a.
Arguments Raise {A} e.

(** A pretrained YOLO model: the call [model(img, conf=..., iou=...)] and
    the [names] table from class index to label. *)
Record YOLO := {
  predict : image -> Q -> option Q -> outcome Results;
  names : Z -> string
}.

(** What ends up on disk. *)
Inductive artifact :=
| Plot (r : Results)
| Json (d : dict pystr)
| Upload
| Png.

(** The observable state: the log of files written and the calls made to
    the OCR backend (language list and region), both most recent first.  The
    content of a path is its first entry in [files], so a later write to the
    same path supersedes the earlier one, as [open(..., 'w')] and
    [cv2.imwrite] overwrite. *)
Record world := {
  files : list (string * artifact);
  ocr_calls : list (list string * image)
}.

Definition write_file (p : string) (a : artifact) (w : world) : world :=
  {| files := (p, a) :: files w; ocr_calls := ocr_calls w |}.

Definition remove_file (p : string) (w : world) : world :=
  {| files := filter (fun e => negb (String.eqb (fst e) p)) (files w);
     ocr_calls := ocr_calls w |}.

Definition log_ocr (langs : list string) (region : image) (w : world) : world :=
  {| files := files w; ocr_calls := (langs, region) :: ocr_calls w |}.

(** [cv2.imwrite] reports failure by returning [False], or raises. *)
Inductive imwrite_status :=
| ImwriteTrue
| ImwriteFalse
| ImwriteError (msg : string).

(** OpenCV and the file system. [cv2_imread] is what decoding the file at a
    path yields ([None] when it cannot be decoded); the [_error] oracles say
    whether the call raises, and with which message.  [os_remove_error p] is
    [Some msg] when [p] exists at clean-up time and [os.remove(p)] raises (a
    directory, a permission), [None] when it is absent or goes away without
    error.  [os_path_samefile] says whether two different path strings name
    one file. *)
Record Host := {
  cv2_imread : string -> option image;
  luma : pixel -> Z;
  plot_error : Results -> option string;
  cv2_imwrite : string -> imwrite_status;
  open_error : string -> option string;
  makedirs_error : string -> option string;
  read_heif_error : string -> option string;
  os_remove_error : string -> option string;
  os_path_samefile : string -> string -> bool
}.

(** ** Computations: state passing with exceptions *)

Definition M (A : Type) := world -> outcome A * world.

Definition ret {A} (a : A) : M A := fun w => (Return a, w).
Definition raise {A} (e : exn) : M A := fun w => (Raise e, w).
Definition bind {A B} (m : M A) (k : A -> M B) : M B :=
  fun w => match m w with
           | (Return a, w') => k a w'
           | (Raise e, w') => (Raise e, w')
           end.
Definition lift {A} (o : outcome A) : M A := fun w => (o, w).
Definition modify (f : world -> world) : M unit := fun w => (Return tt, f w).

Notation "x <- c ;; k" := (bind c (fun x => k))
  (at level 61, c at next level, right associativity).
Notation "' pat <- c ;; k" :=
  (bind c (fun x => match x with pat => k end))
  (at level 61, pat pattern, c at next level, right associativity).
Notation "c ;;; k" := (bind c (fun _ => k))
  (at level 61, right associativity).

(** [try: body except Exception as e: handler(e)] *)
Definition try_except {A} (body : M A) (handler : exn -> M A) : M A :=
  fun w => match body w with
           | (Return a, w') => (Return a, w')
           | (Raise e, w') => handler e w'
           end.

(** [try: ... finally: cleanup]: the clean-up runs on every way out of the
    body; when it raises, its exception replaces whatever the body returned
    or raised. *)
Definition finally {A} (body : M A) (cleanup : M unit) : M A :=
  fun w => let '(o, w1) := body w in
           match cleanup w1 with
           | (Return _, w2) => (o, w2)
           | (Raise e, w2) => (Raise e, w2)
           end.

(** A call that either raises with the oracle's message or goes through. *)
Definition guard_error (err : option string) : M unit :=
  match err with
  | Some msg => raise (Exception msg)
  | None => ret tt
  end.

(** ** Paths *)

(** [os.path.join(a, b)] *)
Definition path_join (a b : string) : string :=
  if String.prefix "/" b then b
  else if (String.eqb a "") || (String.eqb (substring (String.length a - 1) 1 a) "/")
       then (a ++ b)%string
       else (a ++ "/" ++ b)%string.

(** [os.path.basename(p)]: what follows the last ['/']. [acc] is the
    component read so far. *)
Fixpoint basename_go (acc : string) (p : string) : string :=
  match p with
  | EmptyString => acc
  | String c p' =>
      if Ascii.eqb c "/" then basename_go "" p'
      else basename_go (acc ++ String c "") p'
  end.
Definition basename (p : string) : string := basename_go "" p.

(** Index of the last ['.'] of [s], counted from [i]. *)
Fixpoint rfind_dot (i : nat) (s : string) : option nat :=
  match s with
  | EmptyString => None
  | String c s' =>
      match rfind_dot (S i) s' with
      | Some j => Some j
      | None => if Ascii.eqb c "." then Some i else None
      end
  end.

(** Whether some character of the first [n] is not a dot. *)
Fixpoint has_non_dot (n : nat) (s : string) : bool :=
  match n, s with
  | S n', String c s' => negb (Ascii.eqb c ".") || has_non_dot n' s'
  | _, _ => false
  end.

(** [os.path.splitext(p)[0]] for a [p] without separators. *)
Definition splitext0 (p : string) : string :=
  match rfind_dot 0 p with
  | Some j => if has_non_dot j p then substring 0 j p else p
  | None => p
  end.

(** ASCII part of [str.lower()], and [str.endswith]. *)
Definition lower_ascii (c : ascii) : ascii :=
  let n := nat_of_ascii c in
  if ((65 <=? n) && (n <=? 90))%nat then ascii_of_nat (n + 32) else c.
Fixpoint lower (s : string) : string :=
  match s with
  | EmptyString => EmptyString
  | String c s' => String (lower_ascii c) (lower s')
  end.
Definition endswith (s suf : string) : bool :=
  (String.length suf <=? String.length s)%nat
  && String.eqb (substring (String.length s - String.length suf) (String.length suf) s) suf.

(** ** Colour conversion and shared small helpers *)

(** [cv2.cvtColor(img, cv2.COLOR_BGR2GRAY)] followed by
    [cv2.cvtColor(gray, cv2.COLOR_GRAY2BGR)]: every pixel becomes its
    luminance, replicated on the three channels. *)
Definition BGR2GRAY (h : Host) (img : image) : list (list Z) :=
  map (map (luma h)) img.
Definition GRAY2BGR (gray : list (list Z)) : image :=
  map (map (fun y => (y, y, y))) gray.

(** [x in l] for a list of strings *)
Definition in_list (x : string) (l : list string) : bool :=
  existsb (String.eqb x) l.

(** [if os.path.exists(p): os.remove(p)] *)
Definition os_remove (h : Host) (p : string) : M unit :=
  match os_remove_error h p with
  | Some msg => raise (Exception msg)
  | None => modify (remove_file p)
  end.

(** [shutil.copy(src, dst)]; it refuses to copy a file onto itself. *)
Definition shutil_copy (h : Host) (src dst : string) : M unit :=
  if String.eqb src dst || os_path_samefile h src dst
  then raise (Exception ("'" ++ src ++ "' and '" ++ dst ++ "' are the same file"))
  else guard_error (open_error h dst) ;;; modify (write_file dst Upload).

(** The upload handed over by FastAPI. *)
Record UploadFile := { filename : string }.

(** ** OCR/ocr_support_file_heic.py *)

Module ocr_support_file_heic.

(** The module's globals and its OCR engine. [CARD_DETECTOR] and
    [TEXT_DETECTOR] are [None] when loading failed at start-up. *)
Record Env := {
  host : Host;
  CARD_DETECTOR : option YOLO;
  TEXT_DETECTOR : option YOLO;
  image_to_string : image -> string -> string -> outcome pystr;
  unicode_decimal : N -> bool
}.

Section Pipeline.
Variable env : Env.

Definition save_plotted_image (results : Results) (output_path : string) : M unit :=
  guard_error (plot_error (host env) results) ;;;
  match cv2_imwrite (host env) output_path with
  | ImwriteTrue => modify (write_file output_path (Plot results))
  | ImwriteFalse => ret tt
  | ImwriteError msg => raise (Exception msg)
  end.

Definition crop_card (card_detector_model : YOLO) (image_path : string)
  : M (option image * option Results) :=
  match cv2_imread (host env) image_path with
  | None => ret (None, None)
  | Some img =>
      let gray_img := BGR2GRAY (host env) img in
      let img_for_detection := GRAY2BGR gray_img in
      results <- lift (predict card_detector_model img_for_detection (1#4) None) ;;
      let boxes_data := boxes results in
      if (List.length boxes_data =? 0)%nat then ret (None, Some results)
      else
        let confidences := map conf boxes_data in
        let best_box_index := argmax confidences in
        let best_box :=
          nth best_box_index (map (fun b => box_astype_int (xyxy b)) boxes_data)
              (0, 0, 0, 0) in
        let '(x1, y1, x2, y2) := best_box in
        let y1 := Z.max 0 y1 in
        let y2 := Z.min (shape0 img) y2 in
        let x1 := Z.max 0 x1 in
        let x2 := Z.min (shape1 img) x2 in
        let cropped_card := crop img y1 y2 x1 x2 in
        if size cropped_card >? 0
        then ret (Some cropped_card, Some results)
        else ret (None, Some results)
  end.

(** The body of the loop over [range(len(boxes_data))]. *)
Definition detect_step (names : Z -> string)
    (best_detections : dict Detection) (b : raw_box) : dict Detection :=
  let box := box_astype_int (xyxy b) in
  let class_id := astype_int (cls b) in
  let label := names class_id in
  let confidence_i := conf b in
  let d := {| box := box; label := label; confidence := confidence_i |} in
  match dict_get label best_detections with
  | None => dict_set label d best_detections
  | Some kept =>
      if Qgtb confidence_i (confidence kept)
      then dict_set label d best_detections
      else best_detections
  end.

Definition detect_text_fields (text_detector_model : YOLO)
    (cropped_card_img : option image) : M (list Detection * option Results) :=
  match cropped_card_img with
  | None => ret ([], None)
  | Some img =>
      results <- lift (predict text_detector_model img (1#4) None) ;;
      let boxes_data := boxes results in
      let best_detections :=
        fold_left (detect_step (names text_detector_model)) boxes_data [] in
      let detections :=
        sorted (fun d => (box1 d, box0 d)) (dict_values best_detections) in
      ret (detections, Some results)
  end.

Definition th_labels : list string :=
  ["prefix_name_th"; "first_name_th"; "last_name_th"]%string.
Definition en_labels : list string :=
  ["prefix_name_en"; "first_name_en"; "last_name_en"]%string.

(** ['tha' if label in th_labels else ('eng' if label in en_labels else 'tha+eng')] *)
Definition select_lang (label : string) : string :=
  if in_list label th_labels then "tha"
  else if in_list label en_labels then "eng" else "tha+eng".

(** [pytesseract.image_to_string(region, lang=..., config=...)] *)
Definition call_tesseract (region : image) (lang config : string) : M pystr :=
  fun w => (image_to_string env region lang config, log_ocr [lang] region w).

(** The body of the loop over [text_fields]. *)
Definition read_field (cropped_card_img : image) (extracted_data : dict pystr)
    (field : Detection) : M (dict pystr) :=
  let text_region :=
    crop cropped_card_img (box1 field) (box3 field) (box0 field) (box2 field) in
  if size text_region >? 0 then
    let lang := select_lang (label field) in
    let config := "--psm 7"%string in
    text <- call_tesseract text_region lang config ;;
    let extracted_text := strip text in
    match extracted_text with
    | [] => ret extracted_data
    | _ =>
        let cleaned_text :=
          re_sub_class (fun c => (c =? 10) || (c =? 12))%N extracted_text in
        ret (dict_set (label field) cleaned_text extracted_data)
    end
  else ret extracted_data.

Fixpoint read_fields (cropped_card_img : image) (extracted_data : dict pystr)
    (text_fields : list Detection) : M (dict pystr) :=
  match text_fields with
  | [] => ret extracted_data
  | field :: rest =>
      extracted_data' <- read_field cropped_card_img extracted_data field ;;
      read_fields cropped_card_img extracted_data' rest
  end.

Definition read_text_from_fields (cropped_card_img : image)
    (text_fields : list Detection) : M (dict pystr) :=
  read_fields cropped_card_img [] text_fields.

(** [entities.update(other)] *)
Definition dict_update {V} (other : dict V) (d : dict V) : dict V :=
  fold_left (fun acc kv => dict_set (fst kv) (snd kv) acc) other d.

Definition map_entities (raw_text_data : dict pystr) : dict pystr :=
  let entities : dict pystr := [] in
  let entities :=
    match dict_get "id_card" raw_text_data with
    | Some v =>
        dict_set "id_card"
          (strip (re_sub_class
                    (fun c => negb (isdecimal (unicode_decimal env) c || isspace c)) v))
          entities
    | None => entities
    end in
  let entities :=
    match dict_get "en_name" raw_text_data with
    | Some v =>
        let parts := split v in
        if (3 <=? List.length parts)%nat
        then dict_update [("en_prefix"%string, nth 0 parts []);
                          ("en_firstname"%string, nth 1 parts []);
                          ("en_lastname"%string, join (lit " ") (skipn 2 parts))]
                         entities
        else dict_set "en_name_raw" v entities
    | None => entities
    end in
  fold_left
    (fun acc kv =>
       if in_list (fst kv) ["id_card"; "en_name"]%string then acc
       else dict_set (fst kv) (strip (snd kv)) acc)
    raw_text_data entities.

Definition run_ocr_pipeline (image_path output_dir : string) : M (dict pystr) :=
  match CARD_DETECTOR env, TEXT_DETECTOR env with
  | Some card_detector, Some text_detector =>
      let base_filename := splitext0 (basename image_path) in
      '(cropped_card, card_results) <- crop_card card_detector image_path ;;
      match card_results with
      | Some r =>
          save_plotted_image r
            (path_join output_dir (base_filename ++ "_1_card_detection.jpg"))
      | None => ret tt
      end ;;;
      match cropped_card with
      | None =>
          raise (HTTPException 400 "Could not detect an ID card in the image.")
      | Some card =>
          '(text_fields, text_results) <- detect_text_fields text_detector (Some card) ;;
          match text_results with
          | Some r =>
              save_plotted_image r
                (path_join output_dir (base_filename ++ "_2_text_detections.jpg"))
          | None => ret tt
          end ;;;
          raw_text_data <- read_text_from_fields card text_fields ;;
          let final_entities := map_entities raw_text_data in
          let json_output_path := path_join output_dir (base_filename ++ "_data.json") in
          guard_error (open_error (host env) json_output_path) ;;;
          modify (write_file json_output_path (Json final_entities)) ;;;
          ret final_entities
      end
  | _, _ =>
      raise (HTTPException 503 "Models are not loaded. API is unavailable.")
  end.

Definition process_thai_id (file : UploadFile) : M (dict pystr) :=
  let temp_dir := "temp_uploads"%string in
  let output_dir := "output_logs"%string in
  guard_error (makedirs_error (host env) temp_dir) ;;;
  guard_error (makedirs_error (host env) output_dir) ;;;
  let temp_file_path := path_join temp_dir "temp_image.png" in
  let original_upload_path := path_join temp_dir (filename file) in
  finally
    (try_except
       (guard_error (open_error (host env) original_upload_path) ;;;
        modify (write_file original_upload_path Upload) ;;;
        (if endswith (lower (filename file)) ".heic"
            || endswith (lower (filename file)) ".heif"
         then
           guard_error (read_heif_error (host env) original_upload_path) ;;;
           match cv2_imwrite (host env) temp_file_path with
           | ImwriteTrue => modify (write_file temp_file_path Png)
           | ImwriteFalse => ret tt
           | ImwriteError msg => raise (Exception msg)
           end
         else shutil_copy (host env) original_upload_path temp_file_path) ;;;
        extracted_data <- run_ocr_pipeline temp_file_path output_dir ;;
        ret extracted_data)
       (fun e =>
          raise (HTTPException 500
                   ("An internal server error occurred: " ++ str_exn e))))
    (os_remove (host env) temp_file_path ;;;
     os_remove (host env) original_upload_path).

End Pipeline.
End ocr_support_file_heic.

(** ** OCR/ocr_thai_id_card_easyocr.py *)

Module ocr_thai_id_card_easyocr.

(** An [easyocr.Reader]: the languages it was built for, and
    [readtext(region, detail=0, paragraph=False)]. *)
Record Reader := {
  lang_list : list string;
  readtext : image -> outcome (list pystr)
}.

(** The module's globals; all [None] when loading failed at start-up. *)
Record Env := {
  host : Host;
  CARD_DETECTOR : option YOLO;
  TEXT_DETECTOR : option YOLO;
  TH_READER : option Reader;
  EN_READER : option Reader;
  MIXED_READER : option Reader
}.

Section Pipeline.
Variable env : Env.

Definition save_plotted_image (results : Results) (output_path : string) : M unit :=
  guard_error (plot_error (host env) results) ;;;
  match cv2_imwrite (host env) output_path with
  | ImwriteTrue => modify (write_file output_path (Plot results))
  | ImwriteFalse => ret tt
  | ImwriteError msg => raise (Exception msg)
  end.

Definition crop_card (card_detector_model : YOLO) (image_path : string)
  : M (option image * option Results) :=
  match cv2_imread (host env) image_path with
  | None => ret (None, None)
  | Some img =>
      let gray_img := BGR2GRAY (host env) img in
      let img := GRAY2BGR gray_img in
      results <- lift (predict card_detector_model img (1#4) (Some (1#4))) ;;
      let boxes_data := boxes results in
      if (List.length boxes_data =? 0)%nat then ret (None, Some results)
      else
        let confidences := map conf boxes_data in
        let best_box_index := argmax confidences in
        let best_box :=
          nth best_box_index (map (fun b => box_astype_int (xyxy b)) boxes_data)
              (0, 0, 0, 0) in
        let '(x1, y1, x2, y2) := best_box in
        let y1 := Z.max 0 y1 in
        let y2 := Z.min (shape0 img) y2 in
        let x1 := Z.max 0 x1 in
        let x2 := Z.min (shape1 img) x2 in
        let cropped_card := crop img y1 y2 x1 x2 in
        if size cropped_card >? 0
        then ret (Some cropped_card, Some results)
        else ret (None, Some results)
  end.

(** The body of the loop over [range(len(boxes_data))]. *)
Definition detect_step (names : Z -> string)
    (best_detections : dict Detection) (b : raw_box) : dict Detection :=
  let box := box_astype_int (xyxy b) in
  let class_id := astype_int (cls b) in
  let label := names class_id in
  let confidence_i := conf b in
  let d := {| box := box; label := label; confidence := confidence_i |} in
  match dict_get label best_detections with
  | None => dict_set label d best_detections
  | Some kept =>
      if Qgtb confidence_i (confidence kept)
      then dict_set label d best_detections
      else best_detections
  end.

Definition detect_text_fields (text_detector_model : YOLO)
    (cropped_card_img : option image) : M (list Detection * option Results) :=
  match cropped_card_img with
  | None => ret ([], None)
  | Some img =>
      results <- lift (predict text_detector_model img (1#100) (Some (1#4))) ;;
      let boxes_data := boxes results in
      let best_detections :=
        fold_left (detect_step (names text_detector_model)) boxes_data [] in
      let detections :=
        sorted (fun d => (box1 d, box0 d)) (dict_values best_detections) in
      ret (detections, Some results)
  end.

Definition th_labels : list string :=
  ["prefix_name_th"; "first_name_th"; "last_name_th"; "date_of_birth_th";
   "date_of_expity_th"; "religion"]%string.
Definition en_labels : list string :=
  ["prefix_name_en"; "first_name_en"; "last_name_en"; "date_of_birth_en";
   "date_of_expity_en"]%string.

(** [th_reader if label in th_labels else (en_reader if label in en_labels
    else mixed_reader)] *)
Definition select_reader (th_reader en_reader mixed_reader : Reader)
    (label : string) : Reader :=
  if in_list label th_labels then th_reader
  else if in_list label en_labels then en_reader else mixed_reader.

(** [reader.readtext(region, detail=0, paragraph=False)] *)
Definition call_readtext (reader : Reader) (region : image) : M (list pystr) :=
  fun w => (readtext reader region, log_ocr (lang_list reader) region w).

(** The body of the loop over [text_fields]. *)
Definition read_field (th_reader en_reader mixed_reader : Reader)
    (cropped_card_img : image) (extracted_data : dict pystr)
    (field : Detection) : M (dict pystr) :=
  let text_region :=
    crop cropped_card_img (box1 field) (box3 field) (box0 field) (box2 field) in
  if size text_region >? 0 then
    let reader := select_reader th_reader en_reader mixed_reader (label field) in
    result <- call_readtext reader text_region ;;
    match result with
    | [] => ret extracted_data
    | _ => ret (dict_set (label field) (join (lit " ") result) extracted_data)
    end
  else ret extracted_data.

Fixpoint read_fields (th_reader en_reader mixed_reader : Reader)
    (cropped_card_img : image) (extracted_data : dict pystr)
    (text_fields : list Detection) : M (dict pystr) :=
  match text_fields with
  | [] => ret extracted_data
  | field :: rest =>
      extracted_data' <-
        read_field th_reader en_reader mixed_reader cropped_card_img
                   extracted_data field ;;
      read_fields th_reader en_reader mixed_reader cropped_card_img
                  extracted_data' rest
  end.

Definition read_text_from_fields (th_reader en_reader mixed_reader : Reader)
    (cropped_card_img : image) (text_fields : list Detection) : M (dict pystr) :=
  read_fields th_reader en_reader mixed_reader cropped_card_img [] text_fields.

Definition map_entities (raw_text_data : dict pystr) : dict pystr :=
  raw_text_data.

Definition run_ocr_pipeline (image_path output_dir : string) : M (dict pystr) :=
  match CARD_DETECTOR env, TEXT_DETECTOR env,
        TH_READER env, EN_READER env, MIXED_READER env with
  | Some card_detector, Some text_detector,
    Some th_reader, Some en_reader, Some mixed_reader =>
      let base_filename := splitext0 (basename image_path) in
      '(cropped_card, card_results) <- crop_card card_detector image_path ;;
      match card_results with
      | Some r =>
          save_plotted_image r
            (path_join output_dir (base_filename ++ "_1_card_detection.jpg"))
      | None => ret tt
      end ;;;
      match cropped_card with
      | None =>
          raise (HTTPException 400 "Could not detect an ID card in the image.")
      | Some card =>
          '(text_fields, text_results) <- detect_text_fields text_detector (Some card) ;;
          match text_results with
          | Some r =>
              save_plotted_image r
                (path_join output_dir (base_filename ++ "_2_text_detections.jpg"))
          | None => ret tt
          end ;;;
          raw_text_data <-
            read_text_from_fields th_reader en_reader mixed_reader card text_fields ;;
          let final_entities := map_entities raw_text_data in
          let json_output_path := path_join output_dir (base_filename ++ "_data.json") in
          guard_error (open_error (host env) json_output_path) ;;;
          modify (write_file json_output_path (Json final_entities)) ;;;
          ret final_entities
      end
  | _, _, _, _, _ =>
      raise (HTTPException 503 "Models are not loaded. API is unavailable.")
  end.

Definition process_thai_id (file : UploadFile) : M (dict pystr) :=
  let temp_dir := "temp_uploads"%string in
  let output_dir := "output_logs"%string in
  guard_error (makedirs_error (host env) temp_dir) ;;;
  guard_error (makedirs_error (host env) output_dir) ;;;
  let temp_file_path := path_join temp_dir (filename file) in
  finally
    (try_except
       (guard_error (open_error (host env) temp_file_path) ;;;
        modify (write_file temp_file_path Upload) ;;;
        extracted_data <- run_ocr_pipeline temp_file_path output_dir ;;
        ret extracted_data)
       (fun e =>
          match e with
          | HTTPException _ _ => raise e
          | Exception _ =>
              raise (HTTPException 500
                       ("An internal server error occurred: " ++ str_exn e))
          end))
    (os_remove (host env) temp_file_path).

End Pipeline.
End ocr_thai_id_card_easyocr.

Module H := ocr_support_file_heic.
Module E := ocr_thai_id_card_easyocr.


(** ** Vocabulary used to state the properties *)

(** The order [sorted] produces on keys: first component ascending, then
    second component ascending. *)
Definition lex_le (a b : Z * Z) : Prop :=
  fst a < fst b \/ (fst a = fst b /\ snd a <= snd b).

Definition by_key {A} (key : A -> Z * Z) (a b : A) : Prop :=
  lex_le (key a) (key b).

(** Reading order of detections: the sort key of [detect_text_fields]. *)
Definition reading_key (d : Detection) : Z * Z := (box1 d, box0 d).

(** The dictionary [detect_text_fields] builds from one raw detection. *)
Definition det_of (names : Z -> string) (b : raw_box) : Detection :=
  {| box := box_astype_int (xyxy b);
     label := names (astype_int (cls b));
     confidence := conf b |}.

(** [d] comes from the first raw detection of its label that reaches the
    highest confidence of that label: everything of the label before it is
    strictly lower, everything after it is not higher. *)
Definition first_best (names : Z -> string) (bs : list raw_box) (d : Detection) : Prop :=
  exists pre b post,
    bs = pre ++ b :: post /\ d = det_of names b /\
    (forall b', In b' pre -> label (det_of names b') = label d ->
                (conf b' < conf b)%Q) /\
    (forall b', In b' post -> label (det_of names b') = label d ->
                (conf b' <= conf b)%Q).

(** What holds of [best_detections] once the loop of [detect_text_fields]
    has consumed the raw detections [bs]. *)
Definition best_inv (names : Z -> string) (bs : list raw_box)
    (best : dict Detection) : Prop :=
  NoDup (dict_keys best)
  /\ (forall k d, In (k, d) best -> k = label d /\ first_best names bs d)
  /\ (forall b, In b bs -> In (label (det_of names b)) (dict_keys best)).

(** The value [detect_text_fields] returns for the raw detections [bs]. *)
Definition selected (names : Z -> string) (bs : list raw_box) : list Detection :=
  sorted reading_key (dict_values (fold_left (H.detect_step names) bs [])).

(** [dets] holds exactly one detection per label occurring in [bs], each the
    first raw detection of its label that reaches the label's maximal
    confidence. *)
Definition one_best_per_label (names : Z -> string) (bs : list raw_box)
    (dets : list Detection) : Prop :=
  NoDup (map label dets)
  /\ (forall l, In l (map label dets) <->
                exists b, In b bs /\ label (det_of names b) = l)
  /\ (forall d b, In d dets -> In b bs -> label (det_of names b) = label d ->
                  (conf b <= confidence d)%Q)
  /\ (forall d, In d dets -> first_best names bs d).

(** The sub-image [read_text_from_fields] cuts out for a field:
    [cropped_card_img[box[1]:box[3], box[0]:box[2]]]. *)
Definition region (img : image) (f : Detection) : image :=
  crop img (box1 f) (box3 f) (box0 f) (box2 f).

(** Between [w] and [w'] only OCR calls on regions of positive size were
    added to the log. *)
Definition only_nonempty_calls (w w' : world) : Prop :=
  exists calls, ocr_calls w' = calls ++ ocr_calls w
                /\ Forall (fun c => 0 < size (snd c)) calls.

(** The three debug artifacts of [run_ocr_pipeline]. *)
Definition card_plot_path (image_path output_dir : string) : string :=
  path_join output_dir (splitext0 (basename image_path) ++ "_1_card_detection.jpg").
Definition text_plot_path (image_path output_dir : string) : string :=
  path_join output_dir (splitext0 (basename image_path) ++ "_2_text_detections.jpg").
Definition json_path (image_path output_dir : string) : string :=
  path_join output_dir (splitext0 (basename image_path) ++ "_data.json").

(** The same host with another behaviour of [cv2.imwrite]. *)
Definition set_imwrite (h : Host) (f : string -> imwrite_status) : Host := {|
  cv2_imread := cv2_imread h;
  luma := luma h;
  plot_error := plot_error h;
  cv2_imwrite := f;
  open_error := open_error h;
  makedirs_error := makedirs_error h;
  read_heif_error := read_heif_error h;
  os_remove_error := os_remove_error h;
  os_path_samefile := os_path_samefile h
|}.

Definition H_set_imwrite (env : H.Env) (f : string -> imwrite_status) : H.Env := {|
  H.host := set_imwrite (H.host env) f;
  H.CARD_DETECTOR := H.CARD_DETECTOR env;
  H.TEXT_DETECTOR := H.TEXT_DETECTOR env;
  H.image_to_string := H.image_to_string env;
  H.unicode_decimal := H.unicode_decimal env
|}.



(** Two computations that return the same value, or raise the same
    exception, from whatever worlds they start in. *)
Definition same_outcome {A} (m1 m2 : M A) : Prop :=
  forall w1 w2, fst (m1 w1) = fst (m2 w2).

(** The image the detectors are shown: grey-converted and back on three
    channels. *)
Definition gray3 (h : Host) (img : image) : image := GRAY2BGR (BGR2GRAY h img).

(** [i] is the index of the first maximal element of [l]. *)
Definition first_max (l : list Q) (i : nat) : Prop :=
  (i < List.length l)%nat
  /\ (forall j, (j < List.length l)%nat -> (nth j l 0%Q <= nth i l 0%Q)%Q)
  /\ (forall j, (j < i)%nat -> (nth j l 0%Q < nth i l 0%Q)%Q).

(** The crop [crop_card] takes for a box: clipped to the image, then cut
    out. *)
Definition clip_crop (img : image) (b : Z * Z * Z * Z) : image :=
  let '(x1, y1, x2, y2) := b in
  crop img (Z.max 0 y1) (Z.min (shape0 img) y2) (Z.max 0 x1) (Z.min (shape1 img) x2).

(** An empty crop counts as no card. *)
Definition card_of (c : image) : option image :=
  if size c >? 0 then Some c else None.

(** Every row has the width [img.shape[1]], as in a decoded image. *)
Definition rectangular (img : image) : Prop :=
  Forall (fun r => Z.of_nat (List.length r) = shape1 img) img.

Definition zero_box : raw_box := {| xyxy := (0%Q, 0%Q, 0%Q, 0%Q); conf := 0%Q; cls := 0%Q |}.

(** Text as [read_text_from_fields] of the pytesseract variant stores it:
    not empty, no whitespace at either end, no line feed and no form feed
    anywhere. *)
Definition clean_text (s : pystr) : Prop :=
  s <> []
  /\ (forall c t, s = c :: t -> isspace c = false)
  /\ (forall c t, s = t ++ [c] -> isspace c = false)
  /\ ~ In 10%N s /\ ~ In 12%N s.

(** What holds of [extracted_data] while the loop of the pytesseract
    variant's [read_text_from_fields] runs over fields of [fs]. *)
Definition raw_map_inv (img : image) (fs : list Detection) (d : dict pystr) : Prop :=
  NoDup (dict_keys d)
  /\ forall k v, In (k, v) d ->
       clean_text v
       /\ exists f, In f fs /\ label f = k /\ 0 < size (region img f).

(** The OCR calls a complete pass over [fs] makes, in field order: one per
    field with a non-empty region, with the hint of the variant's table. *)
Definition H_calls (img : image) (fs : list Detection) : list (list string * image) :=
  map (fun f => ([H.select_lang (label f)], region img f))
      (filter (fun f => size (region img f) >? 0) fs).

Definition E_calls (th en mx : E.Reader) (img : image) (fs : list Detection)
  : list (list string * image) :=
  map (fun f => (E.lang_list (E.select_reader th en mx (label f)), region img f))
      (filter (fun f => size (region img f) >? 0) fs).

(** A token of [str.split()]: not empty, no whitespace inside. *)
Definition token (t : pystr) : Prop :=
  t <> [] /\ Forall (fun c => isspace c = false) t.

(** Coordinates on which [astype(int)], a cast to int64, is the truncation
    toward zero: those whose truncation fits 64 bits. *)
Definition in_int64 (q : Q) : Prop :=
  -9223372036854775808 <= astype_int q < 9223372036854775808.

Definition box_in_int64 (b : Q * Q * Q * Q) : Prop :=
  let '(x1, y1, x2, y2) := b in
  in_int64 x1 /\ in_int64 y1 /\ in_int64 x2 /\ in_int64 y2.

(** [cv2.imwrite] wrote the file: it returned [True]. *)
Definition imwrite_ok (st : imwrite_status) : bool :=
  match st with
  | ImwriteTrue => true
  | _ => false
  end.

(** The world after [save_plotted_image] has gone through for [r] at [p]:
    the plot is recorded exactly when [cv2.imwrite] returned [True]. *)
Definition after_plot (h : Host) (p : string) (r : Results) (w : world) : world :=
  if imwrite_ok (cv2_imwrite h p) then write_file p (Plot r) w else w.

Definition plot_entry (h : Host) (p : string) (r : Results)
  : list (string * artifact) :=
  if imwrite_ok (cv2_imwrite h p) then [(p, Plot r)] else [].

(** What a returning run has added to the write log between [w] and [w']:
    the stage-1 plot of [r1], then the stage-2 plot of [r2], each exactly
    when its [cv2.imwrite] returned [True], then the JSON snapshot of [d].
    So the snapshot path holds [d], and a path other than these three holds
    what it held before. *)
Definition run_log (h : Host) (image_path output_dir : string) (d : dict pystr)
    (r1 r2 : Results) (w w' : world) : Prop :=
  files w'
  = (json_path image_path output_dir, Json d)
    :: plot_entry h (text_plot_path image_path output_dir) r2
    ++ plot_entry h (card_plot_path image_path output_dir) r1
    ++ files w
  /\ dict_get (json_path image_path output_dir) (files w') = Some (Json d)
  /\ forall p,
       p <> json_path image_path output_dir ->
       p <> text_plot_path image_path output_dir ->
       p <> card_plot_path image_path output_dir ->
       dict_get p (files w') = dict_get p (files w).

(** ** Sample inputs *)

Definition w0 : world := {| files := []; ocr_calls := [] |}.

Definition sample_image : image :=
  [ [(10, 20, 30); (11, 21, 31); (12, 22, 32)];
    [(40, 50, 60); (41, 51, 61); (42, 52, 62)] ].

Definition qbox (x1 y1 x2 y2 : Z) : Q * Q * Q * Q :=
  (inject_Z x1, inject_Z y1, inject_Z x2, inject_Z y2).

Definition sample_names (c : Z) : string :=
  if c =? 0 then "id_card"
  else if c =? 1 then "first_name_th"
  else if c =? 2 then "first_name_en"
  else if c =? 3 then "religion"
  else "other".

(** A host on which every file operation goes through; ["bad"] is a path
    whose content does not decode.  [luma] is OpenCV's 8-bit fixed-point
    formula. *)
Definition sample_host : Host := {|
  cv2_imread := fun p => if String.eqb p "bad" then None else Some sample_image;
  luma := fun '(b, g, r) => (1868 * b + 9617 * g + 4899 * r + 8192) / 16384;
  plot_error := fun _ => None;
  cv2_imwrite := fun _ => ImwriteTrue;
  open_error := fun _ => None;
  makedirs_error := fun _ => None;
  read_heif_error := fun _ => None;
  os_remove_error := fun _ => None;
  os_path_samefile := fun _ _ => false
|}.

Definition sample_card_results : Results :=
  {| boxes := [ {| xyxy := qbox 0 0 2 2; conf := 9#10; cls := 0 |} ] |}.

Definition sample_card_detector : YOLO := {|
  predict := fun _ _ _ => Return sample_card_results;
  names := fun _ => "card"%string
|}.

(** Three fields at y1 = 50, 50, 10 and x1 = 30, 5, 0. *)
Definition three_fields : Results :=
  {| boxes :=
      [ {| xyxy := qbox 30 50 40 60; conf := 5#10; cls := 1 |};
        {| xyxy := qbox 5 50 20 60; conf := 6#10; cls := 2 |};
        {| xyxy := qbox 0 10 1 11; conf := 7#10; cls := 0 |} ] |}.

Definition sample_text_detector : YOLO := {|
  predict := fun _ _ _ => Return three_fields;
  names := sample_names
|}.

(** Raw detections with repeated labels and a tie at the maximum. *)
Definition repeated_fields : Results :=
  {| boxes :=
      [ {| xyxy := qbox 1 1 2 2; conf := 5#10; cls := 1 |};
        {| xyxy := qbox 3 3 4 4; conf := 8#10; cls := 1 |};
        {| xyxy := qbox 0 0 9 9; conf := 3#10; cls := 0 |};
        {| xyxy := qbox 5 5 6 6; conf := 8#10; cls := 1 |} ] |}.

Definition repeated_text_detector : YOLO := {|
  predict := fun _ _ _ => Return repeated_fields;
  names := sample_names
|}.

Definition sample_heic_env : H.Env := {|
  H.host := sample_host;
  H.CARD_DETECTOR := Some sample_card_detector;
  H.TEXT_DETECTOR := Some sample_text_detector;
  H.image_to_string := fun _ _ _ => Return (lit " 12-3 ");
  H.unicode_decimal := fun _ => false
|}.

(** The spec's identifier sample: the text ["1 2340 567-89"] followed by a
    line feed. *)
Definition id_card_sample : pystr := lit "1 2340 567-89" ++ [10%N].

(** A raw map in which the detector also reports a label named like one of
    the keys [map_entities] derives from ["en_name"]. *)
Definition clashing_raw : dict pystr :=
  [("en_name"%string, lit "MR JOHN VAN DAMME"); ("en_prefix"%string, lit "DR")].

Definition th_reader_sample : E.Reader :=
  {| E.lang_list := ["th"%string]; E.readtext := fun _ => Return [lit "ก"] |}.
Definition en_reader_sample : E.Reader :=
  {| E.lang_list := ["en"%string]; E.readtext := fun _ => Return [lit "MR"; lit "JOHN"] |}.
Definition mixed_reader_sample : E.Reader :=
  {| E.lang_list := ["th"; "en"]%string; E.readtext := fun _ => Return [lit "1 2345"] |}.

Definition sample_easyocr_env : E.Env := {|
  E.host := sample_host;
  E.CARD_DETECTOR := Some sample_card_detector;
  E.TEXT_DETECTOR := Some sample_text_detector;
  E.TH_READER := Some th_reader_sample;
  E.EN_READER := Some en_reader_sample;
  E.MIXED_READER := Some mixed_reader_sample
|}.

(** A field inside the sample image, and one whose box lies outside it. *)
Definition field_inside : Detection :=
  {| box := (0, 0, 2, 1); label := "religion"; confidence := 9#10 |}.
Definition field_outside : Detection :=
  {| box := (5, 50, 20, 60); label := "first_name_en"; confidence := 6#10 |}.

(** Start-up failed: no model was loaded. *)
Definition unloaded_heic_env : H.Env := {|
  H.host := sample_host;
  H.CARD_DETECTOR := None;
  H.TEXT_DETECTOR := None;
  H.image_to_string := fun _ _ _ => Return (lit "x");
  H.unicode_decimal := fun _ => false
|}.

Definition unloaded_easyocr_env : E.Env := {|
  E.host := sample_host;
  E.CARD_DETECTOR := None;
  E.TEXT_DETECTOR := None;
  E.TH_READER := None;
  E.EN_READER := None;
  E.MIXED_READER := None
|}.

(** A card detector that finds nothing. *)
Definition no_card_results : Results := {| boxes := [] |}.
Definition blind_card_detector : YOLO := {|
  predict := fun _ _ _ => Return no_card_results;
  names := fun _ => "card"%string
|}.

Definition no_card_heic_env : H.Env := {|
  H.host := sample_host;
  H.CARD_DETECTOR := Some blind_card_detector;
  H.TEXT_DETECTOR := Some sample_text_detector;
  H.image_to_string := fun _ _ _ => Return (lit "x");
  H.unicode_decimal := fun _ => false
|}.

Definition no_card_easyocr_env : E.Env := {|
  E.host := sample_host;
  E.CARD_DETECTOR := Some blind_card_detector;
  E.TEXT_DETECTOR := Some sample_text_detector;
  E.TH_READER := Some th_reader_sample;
  E.EN_READER := Some en_reader_sample;
  E.MIXED_READER := Some mixed_reader_sample
|}.

Definition card_jpg : UploadFile := {| filename := "card.jpg" |}.

(** One field inside the cropped sample card, labelled as the ID number. *)
Definition one_field : Results :=
  {| boxes := [ {| xyxy := qbox 0 0 2 1; conf := 7#10; cls := 0 |} ] |}.

Definition one_field_detector : YOLO := {|
  predict := fun _ _ _ => Return one_field;
  names := sample_names
|}.

Definition reading_heic_env : H.Env := {|
  H.host := sample_host;
  H.CARD_DETECTOR := Some sample_card_detector;
  H.TEXT_DETECTOR := Some one_field_detector;
  H.image_to_string := fun _ _ _ => Return (lit " 12-3 ");
  H.unicode_decimal := fun _ => false
|}.




Definition staged_png : string := "temp_uploads/temp_image.png".
Definition output_logs : string := "output_logs".

(** Two card candidates of equal confidence after a weaker one. *)
Definition tied_card_results : Results :=
  {| boxes := [ {| xyxy := qbox 0 0 1 1; conf := 5#10; cls := 0 |};
                {| xyxy := qbox 1 0 3 2; conf := 9#10; cls := 0 |};
                {| xyxy := qbox 0 1 2 2; conf := 9#10; cls := 0 |} ] |}.

Definition tied_card_detector : YOLO := {|
  predict := fun _ _ _ => Return tied_card_results;
  names := fun _ => "card"%string
|}.

(** A raw map as the field reader produces it, without the two labels
    [map_entities] treats specially. *)
Definition plain_raw : dict pystr :=
  [("religion"%string, lit " Buddhism "); ("first_name_en"%string, lit "John")].

Definition temp_image_png : UploadFile := {| filename := "temp_image.png" |}.

(** An OCR reader that breaks down. *)
Definition broken_reader : E.Reader :=
  {| E.lang_list := ["th"; "en"]%string;
     E.readtext := fun _ => Raise (Exception "CUDA out of memory") |}.

Definition broken_reader_env : E.Env := {|
  E.host := sample_host;
  E.CARD_DETECTOR := Some sample_card_detector;
  E.TEXT_DETECTOR := Some one_field_detector;
  E.TH_READER := Some th_reader_sample;
  E.EN_READER := Some en_reader_sample;
  E.MIXED_READER := Some broken_reader
|}.

(** A host on which the staged upload cannot be removed again. *)
Definition stuck_upload_host : Host := {|
  cv2_imread := cv2_imread sample_host;
  luma := luma sample_host;
  plot_error := fun _ => None;
  cv2_imwrite := fun _ => ImwriteTrue;
  open_error := fun _ => None;
  makedirs_error := fun _ => None;
  read_heif_error := fun _ => None;
  os_remove_error := fun _ => Some "[Errno 13] Permission denied"%string;
  os_path_samefile := fun _ _ => false
|}.

Definition stuck_upload_env : E.Env := {|
  E.host := stuck_upload_host;
  E.CARD_DETECTOR := Some sample_card_detector;
  E.TEXT_DETECTOR := Some one_field_detector;
  E.TH_READER := Some th_reader_sample;
  E.EN_READER := Some en_reader_sample;
  E.MIXED_READER := Some mixed_reader_sample
|}.

(** * Properties *)

(** ** Facts about the Python runtime pieces *)

Section SortFacts.
Variable A : Type.
Variable key : A -> Z * Z.

Lemma key_le_iff (a b : Z * Z) : key_le a b = true <-> lex_le a b.
Proof.
  unfold key_le, lex_le.
  rewrite orb_true_iff, andb_true_iff, Z.ltb_lt, Z.eqb_eq, Z.leb_le.
  tauto.
Qed.

Lemma lex_le_total (a b : Z * Z) : lex_le a b \/ lex_le b a.
Proof. unfold lex_le. lia. Qed.

Lemma lex_le_trans (a b c : Z * Z) : lex_le a b -> lex_le b c -> lex_le a c.
Proof. unfold lex_le. lia. Qed.

Lemma insert_perm (x : A) (l : list A) : Permutation (insert key x l) (x :: l).
Proof.
  induction l as [|y l IH]; simpl.
  - apply Permutation_refl.
  - destruct (key_le (key x) (key y)).
    + apply Permutation_refl.
    + eapply perm_trans; [apply perm_skip, IH | apply perm_swap].
Qed.

Lemma sorted_perm (l : list A) : Permutation (sorted key l) l.
Proof.
  induction l as [|x l IH]; simpl.
  - constructor.
  - eapply perm_trans; [apply insert_perm | apply perm_skip, IH].
Qed.

Lemma insert_sorted (x : A) (l : list A) :
  StronglySorted (by_key key) l -> StronglySorted (by_key key) (insert key x l).
Proof.
  induction 1 as [|y l Hs IH Hall]; simpl.
  - constructor; constructor.
  - destruct (key_le (key x) (key y)) eqn:Hk.
    + apply key_le_iff in Hk.
      constructor; [constructor; assumption|].
      constructor; [exact Hk|].
      rewrite Forall_forall in Hall |- *.
      intros z Hz. eapply lex_le_trans; [exact Hk | apply Hall, Hz].
    + constructor; [exact IH|].
      rewrite Forall_forall in Hall |- *.
      intros z Hz.
      apply (Permutation_in _ (insert_perm x l)) in Hz.
      destruct Hz as [Hxz | Hz]; [subst z|apply Hall, Hz].
      destruct (lex_le_total (key y) (key x)) as [H1 | H1]; [exact H1|].
      apply key_le_iff in H1. congruence.
Qed.

Lemma sorted_sorted (l : list A) : StronglySorted (by_key key) (sorted key l).
Proof.
  induction l as [|x l IH]; simpl.
  - constructor.
  - apply insert_sorted, IH.
Qed.

(** Stability: elements with one and the same key keep their order. *)
Lemma insert_stable (k : Z * Z) (x : A) (l : list A) :
  filter (fun a => key_le (key a) k && key_le k (key a)) (insert key x l)
  = filter (fun a => key_le (key a) k && key_le k (key a)) (x :: l).
Proof.
  induction l as [|y l IH]; [reflexivity|].
  cbn [insert]. destruct (key_le (key x) (key y)) eqn:Hxy; [reflexivity|].
  cbn [filter] in *. rewrite IH.
  destruct (key_le (key x) k && key_le k (key x)) eqn:Hx; [|reflexivity].
  destruct (key_le (key y) k && key_le k (key y)) eqn:Hy; [|reflexivity].
  exfalso.
  apply andb_true_iff in Hx, Hy. destruct Hx as [Hx1 Hx2], Hy as [Hy1 Hy2].
  apply key_le_iff in Hx1, Hy2.
  assert (Hle : lex_le (key x) (key y)) by (eapply lex_le_trans; eauto).
  apply key_le_iff in Hle. congruence.
Qed.

Lemma sorted_stable (k : Z * Z) (l : list A) :
  filter (fun a => key_le (key a) k && key_le k (key a)) (sorted key l)
  = filter (fun a => key_le (key a) k && key_le k (key a)) l.
Proof.
  induction l as [|x l IH]; [reflexivity|].
  cbn [sorted]. rewrite insert_stable. cbn [filter]. now rewrite IH.
Qed.

End SortFacts.

Example slice_like_python :
  slice 1 3 [10; 20; 30; 40] = [20; 30]
  /\ slice (-2) 9 [10; 20; 30; 40] = [30; 40]
  /\ slice 0 (-1) [10; 20; 30; 40] = [10; 20; 30]
  /\ slice 3 1 [10; 20; 30; 40] = []
  /\ argmax [1#2; 9#10; 9#10; 1#10] = 1%nat.
Proof. repeat split. Qed.

Section DictFacts.
Variable V : Type.
Implicit Types (d : dict V) (k : string) (v : V).

Lemma dict_get_None d k : dict_get k d = None <-> ~ In k (dict_keys d).
Proof.
  induction d as [|[k' v'] d IH]; simpl.
  - tauto.
  - destruct (String.eqb k k') eqn:E.
    + apply String.eqb_eq in E. subst. split; [discriminate | tauto].
    + apply String.eqb_neq in E. rewrite IH. split; [intros H [H1|H1]; auto | tauto].
Qed.

Lemma dict_get_Some_In d k v : dict_get k d = Some v -> In (k, v) d.
Proof.
  induction d as [|[k' v'] d IH]; simpl; [discriminate|].
  destruct (String.eqb k k') eqn:E.
  - apply String.eqb_eq in E. intros [= ->]. subst. now left.
  - intros H. right. now apply IH.
Qed.

Lemma dict_In_get d k v : NoDup (dict_keys d) -> In (k, v) d -> dict_get k d = Some v.
Proof.
  induction d as [|[k' v'] d IH]; simpl; [tauto|].
  intros Hnd [H | H].
  - injection H as -> ->. now rewrite String.eqb_refl.
  - inversion Hnd as [|? ? Hnot Hnd']; subst.
    destruct (String.eqb k k') eqn:E.
    + apply String.eqb_eq in E. subst. exfalso. apply Hnot.
      change (In (fst (k', v)) (map fst d)). now apply in_map.
    + now apply IH.
Qed.

Lemma dict_get_set d k k' v :
  dict_get k' (dict_set k v d) = if String.eqb k' k then Some v else dict_get k' d.
Proof.
  induction d as [|[k0 v0] d IH]; simpl.
  - destruct (String.eqb k' k); reflexivity.
  - destruct (String.eqb k k0) eqn:E; simpl.
    + apply String.eqb_eq in E. subst k0.
      destruct (String.eqb k' k); reflexivity.
    + destruct (String.eqb k' k0) eqn:E'.
      * apply String.eqb_eq in E'. subst k0.
        rewrite String.eqb_sym in E. now rewrite E.
      * exact IH.
Qed.

Lemma dict_set_keys d k v :
  dict_keys (dict_set k v d) =
  match dict_get k d with Some _ => dict_keys d | None => dict_keys d ++ [k] end.
Proof.
  induction d as [|[k0 v0] d IH]; simpl; [reflexivity|].
  destruct (String.eqb k k0) eqn:E; simpl; [reflexivity|].
  rewrite IH. destruct (dict_get k d); reflexivity.
Qed.

Lemma dict_set_NoDup d k v : NoDup (dict_keys d) -> NoDup (dict_keys (dict_set k v d)).
Proof.
  intros Hnd. rewrite dict_set_keys.
  destruct (dict_get k d) eqn:E; [exact Hnd|].
  apply dict_get_None in E.
  apply (Permutation_NoDup (l := k :: dict_keys d)).
  - apply Permutation_cons_append.
  - now constructor.
Qed.

Lemma dict_set_In d k v k' v' :
  NoDup (dict_keys d) -> In (k', v') (dict_set k v d) ->
  (k' = k /\ v' = v) \/ (k' <> k /\ In (k', v') d).
Proof.
  intros Hnd Hin.
  assert (Hnd' := dict_set_NoDup d k v Hnd).
  apply dict_In_get in Hin; [|exact Hnd'].
  rewrite dict_get_set in Hin.
  destruct (String.eqb k' k) eqn:E.
  - apply String.eqb_eq in E. injection Hin as <-. now left.
  - apply String.eqb_neq in E. right. split; [exact E|].
    now apply dict_get_Some_In.
Qed.

End DictFacts.

Lemma Qgtb_true (a b : Q) : Qgtb a b = true <-> (b < a)%Q.
Proof.
  unfold Qgtb. rewrite negb_true_iff.
  split.
  - intros H. apply Qnot_le_lt. intros Hle.
    apply Qle_bool_iff in Hle. congruence.
  - intros H. destruct (Qle_bool a b) eqn:E; [|reflexivity].
    apply Qle_bool_iff in E. exfalso. exact (Qlt_not_le _ _ H E).
Qed.

Lemma Qgtb_false (a b : Q) : Qgtb a b = false <-> (a <= b)%Q.
Proof.
  unfold Qgtb. rewrite negb_false_iff. apply Qle_bool_iff.
Qed.

(** ** The per-label selection of [detect_text_fields] *)

Section BestPerLabel.
Variable names : Z -> string.

Local Abbreviation lab b := (label (det_of names b)).
Local Abbreviation best_inv := (best_inv names).
Local Abbreviation selected := (selected names).

Lemma best_inv_nil : best_inv [] [].
Proof.
  split; [constructor|]. split; intros; simpl in *; tauto.
Qed.

Lemma first_best_le bs d b :
  first_best names bs d -> In b bs -> lab b = label d ->
  (conf b <= confidence d)%Q.
Proof.
  intros (pre & b0 & post & -> & -> & Hpre & Hpost) Hin Hl.
  simpl. apply in_app_or in Hin. destruct Hin as [Hin | [<- | Hin]].
  - apply Qlt_le_weak. now apply Hpre.
  - apply Qle_refl.
  - now apply Hpost.
Qed.

Lemma first_best_snoc bs d b :
  first_best names bs d ->
  (lab b = label d -> (conf b <= confidence d)%Q) ->
  first_best names (bs ++ [b]) d.
Proof.
  intros (pre & b0 & post & -> & -> & Hpre & Hpost) Hb.
  exists pre, b0, (post ++ [b]). repeat split.
  - now rewrite <- app_assoc.
  - exact Hpre.
  - intros b' Hin Hl. apply in_app_or in Hin.
    destruct Hin as [Hin | [<- | []]]; [now apply Hpost | now apply Hb].
Qed.

Lemma first_best_new bs b :
  (forall b', In b' bs -> lab b' = lab b -> (conf b' < conf b)%Q) ->
  first_best names (bs ++ [b]) (det_of names b).
Proof.
  intros H. exists bs, b, []. repeat split; [exact H | intros b' []].
Qed.

Lemma detect_step_inv bs best b :
  best_inv bs best -> best_inv (bs ++ [b]) (H.detect_step names best b).
Proof.
  intros (Hnd & Hent & Hcov).
  unfold H.detect_step. fold (det_of names b).
  change (names (astype_int (cls b))) with (lab b).
  destruct (dict_get (lab b) best) as [kept|] eqn:Hget.
  - (* the label is already present *)
    pose proof (dict_get_Some_In _ _ Hget) as Hkept.
    destruct (Hent _ _ Hkept) as [Hk Hfb].
    destruct (Qgtb (conf b) (confidence kept)) eqn:Hgt.
    + apply Qgtb_true in Hgt.
      split; [now apply dict_set_NoDup|]. split.
      * intros k d Hin.
        apply dict_set_In in Hin; [|exact Hnd].
        destruct Hin as [[-> ->] | [Hne Hin]].
        -- split; [reflexivity|]. apply first_best_new.
           intros b' Hb' Hl.
           eapply Qle_lt_trans; [|exact Hgt].
           apply (first_best_le Hfb Hb'). congruence.
        -- destruct (Hent _ _ Hin) as [-> Hd]. split; [reflexivity|].
           apply first_best_snoc; [exact Hd|]. intros Hl. now elim Hne.
      * intros b' Hb'. rewrite dict_set_keys, Hget.
        apply in_app_or in Hb'. destruct Hb' as [Hb' | [<- | []]].
        -- now apply Hcov.
        -- change (In (fst (lab b, kept)) (map fst best)). now apply in_map.
    + apply Qgtb_false in Hgt.
      split; [exact Hnd|]. split.
      * intros k d Hin. destruct (Hent _ _ Hin) as [-> Hd].
        split; [reflexivity|].
        apply first_best_snoc; [exact Hd|]. intros Hl.
        rewrite Hl in Hget.
        rewrite (dict_In_get _ _ _ Hnd Hin) in Hget.
        injection Hget as <-. exact Hgt.
      * intros b' Hb'.
        apply in_app_or in Hb'. destruct Hb' as [Hb' | [<- | []]].
        -- now apply Hcov.
        -- change (In (fst (lab b, kept)) (map fst best)). now apply in_map.
  - (* first detection of this label *)
    pose proof (proj1 (dict_get_None _ _) Hget) as Hnot.
    split; [now apply dict_set_NoDup|]. split.
    + intros k d Hin.
      apply dict_set_In in Hin; [|exact Hnd].
      destruct Hin as [[-> ->] | [Hne Hin]].
      * split; [reflexivity|]. apply first_best_new.
        intros b' Hb' Hl. exfalso. apply Hnot. rewrite <- Hl. now apply Hcov.
      * destruct (Hent _ _ Hin) as [-> Hd]. split; [reflexivity|].
        apply first_best_snoc; [exact Hd|]. intros Hl. now elim Hne.
    + intros b' Hb'. rewrite dict_set_keys, Hget.
      apply in_or_app.
      apply in_app_or in Hb'. destruct Hb' as [Hb' | [<- | []]].
      * left. now apply Hcov.
      * right. now left.
Qed.

Lemma detect_loop_inv bs : forall pre best,
  best_inv pre best ->
  best_inv (pre ++ bs) (fold_left (H.detect_step names) bs best).
Proof.
  induction bs as [|b bs IH]; intros pre best Hinv; simpl.
  - now rewrite app_nil_r.
  - replace (pre ++ b :: bs) with ((pre ++ [b]) ++ bs)
      by (now rewrite <- app_assoc).
    apply IH. now apply detect_step_inv.
Qed.

Lemma selected_spec bs :
  NoDup (map label (selected bs))
  /\ (forall l, In l (map label (selected bs)) <-> exists b, In b bs /\ lab b = l)
  /\ (forall d, In d (selected bs) -> first_best names bs d).
Proof.
  destruct (detect_loop_inv bs best_inv_nil) as (Hnd & Hent & Hcov).
  simpl in *. unfold selected.
  set (best := fold_left (H.detect_step names) bs []) in *.
  assert (Hkeys : map label (dict_values best) = dict_keys best).
  { unfold dict_values, dict_keys. rewrite map_map.
    apply map_ext_in. intros [k d] Hin. simpl.
    symmetry. now apply Hent. }
  assert (Hperm : Permutation (map label (sorted reading_key (dict_values best)))
                              (dict_keys best)).
  { rewrite <- Hkeys. apply Permutation_map, sorted_perm. }
  assert (Hval : forall d, In d (sorted reading_key (dict_values best)) ->
                           In (label d, d) best).
  { intros d Hd. apply (Permutation_in _ (sorted_perm reading_key _)) in Hd.
    unfold dict_values in Hd. apply in_map_iff in Hd.
    destruct Hd as ([k d'] & <- & Hin). simpl.
    destruct (Hent _ _ Hin) as [-> _]. exact Hin. }
  split; [|split].
  - eapply Permutation_NoDup; [apply Permutation_sym, Hperm | exact Hnd].
  - intros l. split.
    + intros Hl. apply in_map_iff in Hl. destruct Hl as (d & <- & Hd).
      destruct (Hent _ _ (Hval _ Hd)) as [_ (pre & b & post & -> & -> & _)].
      exists b. split; [|reflexivity]. apply in_or_app. right. now left.
    + intros (b & Hb & <-).
      eapply Permutation_in; [apply Permutation_sym, Hperm|]. now apply Hcov.
  - intros d Hd. now apply (Hent _ _ (Hval _ Hd)).
Qed.

End BestPerLabel.

Lemma selected_one_best names bs : one_best_per_label names bs (selected names bs).
Proof.
  destruct (selected_spec names bs) as (Hnd & Hlab & Hfb).
  repeat split; try assumption; try apply Hlab.
  intros d b Hd Hb Hl. eapply first_best_le; eauto.
Qed.

Lemma H_detect_text_fields_eq (model : YOLO) img results w :
  predict model img (1#4) None = Return results ->
  H.detect_text_fields model (Some img) w =
  (Return (selected (names model) (boxes results), Some results), w).
Proof.
  intros Hp. unfold H.detect_text_fields, bind, lift. now rewrite Hp.
Qed.

Lemma E_detect_text_fields_eq (model : YOLO) img results w :
  predict model img (1#100) (Some (1#4)) = Return results ->
  E.detect_text_fields model (Some img) w =
  (Return (selected (names model) (boxes results), Some results), w).
Proof.
  intros Hp. unfold E.detect_text_fields, bind, lift. now rewrite Hp.
Qed.

(** C2. Whatever raw detections the field detector returns, both variants of
    [detect_text_fields] return exactly one detection per distinct label; its
    confidence is the highest among the raw detections of that label, and
    among several at that highest value the first-encountered one is the one
    returned. *)
Theorem detect_text_fields_best_per_label :
  forall (model : YOLO) (img : image) (results : Results) (w : world),
    (predict model img (1#4) None = Return results ->
     exists dets,
       H.detect_text_fields model (Some img) w = (Return (dets, Some results), w)
       /\ one_best_per_label (names model) (boxes results) dets)
    /\
    (predict model img (1#100) (Some (1#4)) = Return results ->
     exists dets,
       E.detect_text_fields model (Some img) w = (Return (dets, Some results), w)
       /\ one_best_per_label (names model) (boxes results) dets).
Proof.
  intros model img results w. split; intros Hp;
    exists (selected (names model) (boxes results)); split;
    try apply selected_one_best.
  - now apply H_detect_text_fields_eq.
  - now apply E_detect_text_fields_eq.
Qed.

Lemma detect_text_fields_best_per_label_witness :
  (exists dets,
     H.detect_text_fields repeated_text_detector (Some sample_image) w0
     = (Return (dets, Some repeated_fields), w0)
     /\ one_best_per_label sample_names (boxes repeated_fields) dets)
  /\
  (exists dets,
     E.detect_text_fields repeated_text_detector (Some sample_image) w0
     = (Return (dets, Some repeated_fields), w0)
     /\ one_best_per_label sample_names (boxes repeated_fields) dets).
Proof.
  split.
  - apply (proj1 (detect_text_fields_best_per_label
                    repeated_text_detector sample_image repeated_fields w0)).
    reflexivity.
  - apply (proj2 (detect_text_fields_best_per_label
                    repeated_text_detector sample_image repeated_fields w0)).
    reflexivity.
Defined.

(** On the sample with a tie, the earlier of the two 0.8 detections is kept. *)
Example repeated_fields_selected :
  selected sample_names (boxes repeated_fields) =
  [ {| box := (0, 0, 9, 9); label := "id_card"; confidence := 3#10 |};
    {| box := (3, 3, 4, 4); label := "first_name_th"; confidence := 8#10 |} ].
Proof. reflexivity. Qed.

(** C5. The sequence returned by [detect_text_fields] is in reading order:
    top edge ascending, then left edge ascending; three fields at
    y1 = 50, 50, 10 with x1 = 30, 5, 0 come out as 10/0, 50/5, 50/30. *)
Theorem detect_text_fields_reading_order :
  forall (model : YOLO) (img : image) (results : Results) (w : world),
    (predict model img (1#4) None = Return results ->
     exists dets,
       H.detect_text_fields model (Some img) w = (Return (dets, Some results), w)
       /\ StronglySorted (by_key reading_key) dets)
    /\
    (predict model img (1#100) (Some (1#4)) = Return results ->
     exists dets,
       E.detect_text_fields model (Some img) w = (Return (dets, Some results), w)
       /\ StronglySorted (by_key reading_key) dets)
    /\
    (map (fun b => det_of sample_names b) (boxes three_fields) =
       [ {| box := (30, 50, 40, 60); label := "first_name_th"; confidence := 5#10 |};
         {| box := (5, 50, 20, 60); label := "first_name_en"; confidence := 6#10 |};
         {| box := (0, 10, 1, 11); label := "id_card"; confidence := 7#10 |} ]
     /\ H.detect_text_fields sample_text_detector (Some sample_image) w0 =
       (Return
          ([ {| box := (0, 10, 1, 11); label := "id_card"; confidence := 7#10 |};
             {| box := (5, 50, 20, 60); label := "first_name_en"; confidence := 6#10 |};
             {| box := (30, 50, 40, 60); label := "first_name_th"; confidence := 5#10 |} ],
           Some three_fields), w0)
     /\ E.detect_text_fields sample_text_detector (Some sample_image) w0 =
       H.detect_text_fields sample_text_detector (Some sample_image) w0).
Proof.
  intros model img results w. split; [|split].
  - intros Hp. exists (selected (names model) (boxes results)). split.
    + now apply H_detect_text_fields_eq.
    + apply sorted_sorted.
  - intros Hp. exists (selected (names model) (boxes results)). split.
    + now apply E_detect_text_fields_eq.
    + apply sorted_sorted.
  - repeat split.
Qed.

Lemma detect_text_fields_reading_order_witness :
  (exists dets,
     H.detect_text_fields sample_text_detector (Some sample_image) w0
     = (Return (dets, Some three_fields), w0)
     /\ StronglySorted (by_key reading_key) dets)
  /\
  (exists dets,
     E.detect_text_fields sample_text_detector (Some sample_image) w0
     = (Return (dets, Some three_fields), w0)
     /\ StronglySorted (by_key reading_key) dets).
Proof.
  pose proof (detect_text_fields_reading_order
                sample_text_detector sample_image three_fields w0) as (Hh & He & _).
  split; [apply Hh | apply He]; reflexivity.
Defined.

(** ** Text clean-up *)

Lemma lstrip_suffix (s : pystr) :
  exists p, s = p ++ lstrip s /\ forallb isspace p = true.
Proof.
  induction s as [|c s (p & Hp & Hsp)]; simpl.
  - now exists [].
  - destruct (isspace c) eqn:Hc.
    + exists (c :: p). simpl. rewrite Hc, Hsp. split; [now f_equal | reflexivity].
    + now exists [].
Qed.

Lemma lstrip_head (s : pystr) c t : lstrip s = c :: t -> isspace c = false.
Proof.
  induction s as [|c' s IH]; simpl; [discriminate|].
  destruct (isspace c') eqn:Hc; [exact IH|].
  intros [= -> _]. exact Hc.
Qed.

Lemma rstrip_prefix (s : pystr) : exists q, s = rstrip s ++ q.
Proof.
  unfold rstrip. destruct (lstrip_suffix (rev s)) as (p & Hp & _).
  exists (rev p). rewrite <- rev_app_distr, <- Hp. now rewrite rev_involutive.
Qed.

Lemma rstrip_last (s : pystr) c t : rstrip s = t ++ [c] -> isspace c = false.
Proof.
  unfold rstrip. intros Hr.
  apply (f_equal (@rev N)) in Hr.
  rewrite rev_involutive, rev_app_distr in Hr. simpl in Hr.
  exact (lstrip_head _ Hr).
Qed.

(** No whitespace at either end. *)
Lemma strip_trimmed (s : pystr) :
  (forall c t, strip s = c :: t -> isspace c = false)
  /\ (forall c t, strip s = t ++ [c] -> isspace c = false).
Proof.
  unfold strip. split.
  - intros c t Hs.
    destruct (rstrip_prefix (lstrip s)) as (q & Hq).
    rewrite Hs in Hq. simpl in Hq.
    exact (lstrip_head _ Hq).
  - intros c t Hs. exact (rstrip_last _ _ _ Hs).
Qed.

Lemma strip_Forall (P : N -> Prop) (s : pystr) : Forall P s -> Forall P (strip s).
Proof.
  intros HP. unfold strip.
  destruct (lstrip_suffix s) as (p & Hp & _).
  destruct (rstrip_prefix (lstrip s)) as (q & Hq).
  rewrite Hp, Hq in HP.
  apply Forall_app in HP. destruct HP as [_ HP].
  apply Forall_app in HP. now destruct HP.
Qed.

Section MapEntities.
Variable env : H.Env.

(** The body of the final loop of [map_entities]. *)
Local Abbreviation pass :=
  (fun (acc : dict pystr) (kv : string * pystr) =>
     if in_list (fst kv) ["id_card"; "en_name"]%string then acc
     else dict_set (fst kv) (strip (snd kv)) acc).

(** The loop leaves alone the two keys it skips and every key that is not a
    label of the raw map. *)
Lemma pass_through_get (raw : dict pystr) : forall (acc : dict pystr) (k : string),
  in_list k ["id_card"; "en_name"]%string = true \/ ~ In k (dict_keys raw) ->
  dict_get k (fold_left pass raw acc) = dict_get k acc.
Proof.
  induction raw as [|[k0 v0] raw IH]; intros acc k Hk; [reflexivity|].
  cbn [fold_left]. rewrite IH.
  - cbn [fst snd].
    destruct (in_list k0 ["id_card"; "en_name"]%string) eqn:Hskip; [reflexivity|].
    rewrite dict_get_set.
    destruct (String.eqb k k0) eqn:E; [|reflexivity].
    apply String.eqb_eq in E. subst k0.
    destruct Hk as [Hk | Hk]; [congruence|].
    exfalso. apply Hk. now left.
  - destruct Hk as [Hk | Hk]; [now left|].
    right. intros Hin. apply Hk. now right.
Qed.

Lemma map_entities_id_card (raw : dict pystr) (v : pystr) :
  dict_get "id_card" raw = Some v ->
  dict_get "id_card" (H.map_entities env raw) =
  Some (strip (filter (fun c => isdecimal (H.unicode_decimal env) c || isspace c) v)).
Proof.
  intros Hv. unfold H.map_entities. rewrite Hv.
  rewrite pass_through_get by (now left).
  unfold re_sub_class.
  rewrite (filter_ext _ (fun c => isdecimal (H.unicode_decimal env) c || isspace c))
    by (intros c; apply negb_involutive).
  destruct (dict_get "en_name" raw) as [n|]; [|reflexivity].
  destruct (3 <=? List.length (split n))%nat; reflexivity.
Qed.

End MapEntities.

(** C4, as the code has it. For every raw map with an ["id_card"] entry,
    [map_entities] keeps of its text exactly the decimal digits and the
    whitespace, in order, and trims the result: the output has only digits
    and whitespace and no whitespace at either end.  Whitespace between digit
    groups stays: the spec's sample yields ["1 2340 56789"]. *)
Theorem map_entities_id_card_cleaned :
  forall (env : H.Env) (raw : dict pystr) (v : pystr),
    dict_get "id_card" raw = Some v ->
    exists out,
      dict_get "id_card" (H.map_entities env raw) = Some out
      /\ out = strip (filter (fun c => isdecimal (H.unicode_decimal env) c || isspace c) v)
      /\ Forall (fun c => isdecimal (H.unicode_decimal env) c = true \/ isspace c = true) out
      /\ (forall c t, out = c :: t -> isspace c = false)
      /\ (forall c t, out = t ++ [c] -> isspace c = false)
      /\ H.map_entities env [("id_card"%string, id_card_sample)]
         = [("id_card"%string, lit "1 2340 56789")].
Proof.
  intros env raw v Hv.
  exists (strip (filter (fun c => isdecimal (H.unicode_decimal env) c || isspace c) v)).
  split; [now apply map_entities_id_card|].
  split; [reflexivity|]. split; [|split; [|split]].
  - apply strip_Forall. apply Forall_forall. intros c Hc.
    apply filter_In in Hc. destruct Hc as [_ Hc].
    now apply orb_true_iff in Hc.
  - apply strip_trimmed.
  - apply strip_trimmed.
  - reflexivity.
Qed.

Lemma map_entities_id_card_cleaned_witness :
  exists out,
    dict_get "id_card" (H.map_entities sample_heic_env [("id_card"%string, id_card_sample)])
    = Some out
    /\ out = strip (filter (fun c => isdecimal (fun _ => false) c || isspace c) id_card_sample)
    /\ Forall (fun c => isdecimal (fun _ => false) c = true \/ isspace c = true) out
    /\ (forall c t, out = c :: t -> isspace c = false)
    /\ (forall c t, out = t ++ [c] -> isspace c = false)
    /\ H.map_entities sample_heic_env [("id_card"%string, id_card_sample)]
       = [("id_card"%string, lit "1 2340 56789")].
Proof.
  apply (@map_entities_id_card_cleaned sample_heic_env
           [("id_card"%string, id_card_sample)] id_card_sample).
  reflexivity.
Defined.

(** C4, as stated, fails on the spec's own sample: the result is not
    ["1234056789"], the blanks between the digit groups are still there. *)
Lemma map_entities_id_card_keeps_inner_whitespace :
  H.map_entities sample_heic_env [("id_card"%string, id_card_sample)]
  <> [("id_card"%string, lit "1234056789")].
Proof. discriminate. Qed.

(** The tokens of [split] are the non-empty whitespace-free runs. *)
Lemma split_go_tokens (s : pystr) : forall cur,
  forallb isspace cur = false \/ cur = [] ->
  Forall (fun c => isspace c = false) cur ->
  Forall (fun t => t <> [] /\ Forall (fun c => isspace c = false) t) (split_go cur s).
Proof.
  assert (Hrev : forall cur : pystr, cur <> [] ->
            Forall (fun c => isspace c = false) cur ->
            rev cur <> [] /\ Forall (fun c => isspace c = false) (rev cur)).
  { intros cur Hne Hall. split.
    - intros Hr. apply Hne. apply (f_equal (@rev N)) in Hr.
      now rewrite rev_involutive in Hr.
    - apply Forall_rev, Hall. }
  induction s as [|c s IH]; intros cur Hcur Hall; simpl.
  - destruct cur as [|c0 cur]; [constructor|].
    constructor; [|constructor]. apply Hrev; [discriminate | exact Hall].
  - destruct (isspace c) eqn:Hc.
    + destruct cur as [|c0 cur].
      * apply IH; [now right | constructor].
      * constructor; [apply Hrev; [discriminate | exact Hall]|].
        apply IH; [now right | constructor].
    + apply IH; [left; simpl; now rewrite Hc | now constructor].
Qed.

Lemma split_tokens (s : pystr) :
  Forall (fun t => t <> [] /\ Forall (fun c => isspace c = false) t) (split s).
Proof. apply split_go_tokens; [now right | constructor]. Qed.

Section MapEntitiesName.
Variable env : H.Env.

Lemma map_entities_derived_key (raw : dict pystr) (k : string) :
  ~ In k (dict_keys raw) ->
  dict_get k (H.map_entities env raw) =
  dict_get k
    (match dict_get "en_name" raw with
     | Some v =>
         if (3 <=? List.length (split v))%nat
         then [("en_prefix"%string, nth 0 (split v) []);
               ("en_firstname"%string, nth 1 (split v) []);
               ("en_lastname"%string, join (lit " ") (skipn 2 (split v)))]
         else [("en_name_raw"%string, v)]
     | None => []
     end).
Proof.
  intros Hk. unfold H.map_entities.
  rewrite pass_through_get by (now right).
  assert (Hid : forall x, dict_get "id_card" raw = Some x ->
                          String.eqb k "id_card" = false).
  { intros x E. apply String.eqb_neq. intros ->.
    apply dict_get_Some_In in E. apply Hk.
    change (In (fst ("id_card"%string, x)) (map fst raw)). now apply in_map. }
  destruct (dict_get "id_card" raw) as [x|];
    [specialize (Hid x eq_refl)|];
    (destruct (dict_get "en_name" raw) as [v|];
     [destruct (3 <=? List.length (split v))%nat|]);
    unfold H.dict_update; cbn [fold_left fst snd dict_set String.eqb Ascii.eqb Bool.eqb];
    cbn [dict_get]; rewrite ?Hid; reflexivity.
Qed.

End MapEntitiesName.

(** C3, as the code has it. For every raw map with an ["en_name"] entry and
    no label named ["en_prefix"], ["en_firstname"], ["en_lastname"] or
    ["en_name_raw"]: with at least three whitespace-separated tokens the
    output has the first under ["en_prefix"], the second under
    ["en_firstname"], the rest joined by single spaces under ["en_lastname"],
    and no ["en_name_raw"]; with fewer it has the whole raw string under
    ["en_name_raw"] and none of the three others. *)
Theorem map_entities_en_name_split :
  forall (env : H.Env) (raw : dict pystr) (v : pystr),
    dict_get "en_name" raw = Some v ->
    (forall k, In k ["en_prefix"; "en_firstname"; "en_lastname"; "en_name_raw"]%string ->
               ~ In k (dict_keys raw)) ->
    let out := H.map_entities env raw in
    let parts := split v in
    ((3 <= List.length parts)%nat ->
       dict_get "en_prefix" out = Some (nth 0 parts [])
       /\ dict_get "en_firstname" out = Some (nth 1 parts [])
       /\ dict_get "en_lastname" out = Some (join (lit " ") (skipn 2 parts))
       /\ dict_get "en_name_raw" out = None)
    /\
    ((List.length parts < 3)%nat ->
       dict_get "en_name_raw" out = Some v
       /\ dict_get "en_prefix" out = None
       /\ dict_get "en_firstname" out = None
       /\ dict_get "en_lastname" out = None).
Proof.
  intros env raw v Hv Hfree out parts. subst out parts.
  rewrite !(map_entities_derived_key env raw) by (apply Hfree; simpl; tauto).
  rewrite Hv. split; intros Hlen.
  - apply Nat.leb_le in Hlen. rewrite Hlen. repeat split; reflexivity.
  - apply Nat.leb_gt in Hlen. rewrite Hlen. repeat split; reflexivity.
Qed.

Lemma map_entities_en_name_split_witness :
  (let out := H.map_entities sample_heic_env
                [("en_name"%string, lit "MR JOHN VAN DAMME")] in
   dict_get "en_prefix" out = Some (lit "MR")
   /\ dict_get "en_firstname" out = Some (lit "JOHN")
   /\ dict_get "en_lastname" out = Some (lit "VAN DAMME")
   /\ dict_get "en_name_raw" out = None)
  /\
  (let out := H.map_entities sample_heic_env [("en_name"%string, lit "JOHN")] in
   dict_get "en_name_raw" out = Some (lit "JOHN")
   /\ dict_get "en_prefix" out = None
   /\ dict_get "en_firstname" out = None
   /\ dict_get "en_lastname" out = None).
Proof.
  split.
  - apply (@map_entities_en_name_split sample_heic_env
             [("en_name"%string, lit "MR JOHN VAN DAMME")] (lit "MR JOHN VAN DAMME")).
    + reflexivity.
    + intros k Hk Hin. simpl in Hk, Hin.
      destruct Hin as [<- | []].
      repeat (destruct Hk as [Hk | Hk]; [discriminate Hk|]). exact Hk.
    + vm_compute. lia.
  - apply (@map_entities_en_name_split sample_heic_env
             [("en_name"%string, lit "JOHN")] (lit "JOHN")).
    + reflexivity.
    + intros k Hk Hin. simpl in Hk, Hin.
      destruct Hin as [<- | []].
      repeat (destruct Hk as [Hk | Hk]; [discriminate Hk|]). exact Hk.
    + vm_compute. lia.
Defined.

(** The spec's two name samples, as whole output maps. *)
Example map_entities_name_samples :
  H.map_entities sample_heic_env [("en_name"%string, lit "MR JOHN VAN DAMME")]
  = [("en_prefix"%string, lit "MR"); ("en_firstname"%string, lit "JOHN");
     ("en_lastname"%string, lit "VAN DAMME")]
  /\ H.map_entities sample_heic_env [("en_name"%string, lit "JOHN")]
     = [("en_name_raw"%string, lit "JOHN")].
Proof. split; reflexivity. Qed.

(** C3, as stated, fails when the raw map also carries a label named
    ["en_prefix"]: the pass-through loop runs last and its trimmed text
    replaces the first token. *)
Lemma map_entities_en_prefix_overridden :
  dict_get "en_name" clashing_raw = Some (lit "MR JOHN VAN DAMME")
  /\ (3 <= List.length (split (lit "MR JOHN VAN DAMME")))%nat
  /\ dict_get "en_prefix" (H.map_entities sample_heic_env clashing_raw)
     = Some (lit "DR")
  /\ dict_get "en_prefix" (H.map_entities sample_heic_env clashing_raw)
     <> Some (nth 0 (split (lit "MR JOHN VAN DAMME")) []).
Proof.
  repeat split; try reflexivity.
  - vm_compute. lia.
  - discriminate.
Qed.

(** ** The language table of the Field Reader *)

Lemma in_list_In (x : string) (l : list string) : in_list x l = true <-> In x l.
Proof.
  unfold in_list. rewrite existsb_exists. split.
  - intros (y & Hy & E). apply String.eqb_eq in E. now subst.
  - intros H. exists x. split; [exact H | apply String.eqb_refl].
Qed.

Lemma in_list_not_In (x : string) (l : list string) : in_list x l = false <-> ~ In x l.
Proof.
  rewrite <- in_list_In. destruct (in_list x l); split; congruence.
Qed.

Lemma H_read_field_lang env img acc f w :
  0 < size (region img f) ->
  snd (H.read_field env img acc f w)
  = log_ocr [H.select_lang (label f)] (region img f) w.
Proof.
  intros Hs. unfold H.read_field. fold (region img f).
  apply Z.gtb_lt in Hs. rewrite Hs.
  unfold bind, H.call_tesseract.
  destruct (H.image_to_string env (region img f) (H.select_lang (label f)) "--psm 7");
    [|reflexivity].
  destruct (strip a); reflexivity.
Qed.

Lemma E_read_field_reader th en mx img acc f w :
  0 < size (region img f) ->
  snd (E.read_field th en mx img acc f w)
  = log_ocr (E.lang_list (E.select_reader th en mx (label f))) (region img f) w.
Proof.
  intros Hs. unfold E.read_field. fold (region img f).
  apply Z.gtb_lt in Hs. rewrite Hs.
  unfold bind, E.call_readtext.
  destruct (E.readtext (E.select_reader th en mx (label f)) (region img f)) as [[|]|];
    reflexivity.
Qed.

(** C7, as the code has it. The EasyOCR variant reads the Thai name parts,
    the Thai dates and religion with the Thai reader, the English name parts
    and English dates with the English reader, and every other label with
    the mixed reader.  The pytesseract variant has a smaller table: only the
    three Thai name parts get ['tha'] and the three English name parts
    ['eng']; every other label, the dates and religion included, gets
    ['tha+eng'].  The backend is called with the hint so selected. *)
Theorem language_hint_tables :
  forall (th en mx : E.Reader) (l : string),
    (In l ["prefix_name_th"; "first_name_th"; "last_name_th"; "date_of_birth_th";
           "date_of_expity_th"; "religion"]%string ->
     E.select_reader th en mx l = th)
    /\ (In l ["prefix_name_en"; "first_name_en"; "last_name_en"; "date_of_birth_en";
              "date_of_expity_en"]%string ->
        E.select_reader th en mx l = en)
    /\ (~ In l E.th_labels -> ~ In l E.en_labels -> E.select_reader th en mx l = mx)
    /\ (In l ["prefix_name_th"; "first_name_th"; "last_name_th"]%string ->
        H.select_lang l = "tha"%string)
    /\ (In l ["prefix_name_en"; "first_name_en"; "last_name_en"]%string ->
        H.select_lang l = "eng"%string)
    /\ (~ In l H.th_labels -> ~ In l H.en_labels -> H.select_lang l = "tha+eng"%string)
    /\ (forall env img acc f w, 0 < size (region img f) ->
          snd (H.read_field env img acc f w)
          = log_ocr [H.select_lang (label f)] (region img f) w)
    /\ (forall img acc f w, 0 < size (region img f) ->
          snd (E.read_field th en mx img acc f w)
          = log_ocr (E.lang_list (E.select_reader th en mx (label f))) (region img f) w).
Proof.
  intros th en mx l. repeat split.
  - intros Hl. unfold E.select_reader.
    now rewrite (proj2 (in_list_In l E.th_labels) Hl).
  - intros Hl. unfold E.select_reader.
    rewrite (proj2 (in_list_In l E.en_labels) Hl).
    destruct (in_list l E.th_labels) eqn:Hth; [|reflexivity].
    apply in_list_In in Hth. exfalso.
    simpl in Hl, Hth.
    repeat (destruct Hl as [Hl | Hl]; [subst l; intuition discriminate|]).
    exact Hl.
  - intros H1 H2. unfold E.select_reader.
    now rewrite (proj2 (in_list_not_In _ _) H1), (proj2 (in_list_not_In _ _) H2).
  - intros Hl. unfold H.select_lang.
    now rewrite (proj2 (in_list_In l H.th_labels) Hl).
  - intros Hl. unfold H.select_lang.
    rewrite (proj2 (in_list_In l H.en_labels) Hl).
    destruct (in_list l H.th_labels) eqn:Hth; [|reflexivity].
    apply in_list_In in Hth. exfalso.
    simpl in Hl, Hth.
    repeat (destruct Hl as [Hl | Hl]; [subst l; intuition discriminate|]).
    exact Hl.
  - intros H1 H2. unfold H.select_lang.
    now rewrite (proj2 (in_list_not_In _ _) H1), (proj2 (in_list_not_In _ _) H2).
  - intros. now apply H_read_field_lang.
  - intros. now apply E_read_field_reader.
Qed.

Lemma language_hint_tables_witness :
  E.select_reader th_reader_sample en_reader_sample mixed_reader_sample "religion"
  = th_reader_sample
  /\ E.select_reader th_reader_sample en_reader_sample mixed_reader_sample
       "date_of_birth_en" = en_reader_sample
  /\ E.select_reader th_reader_sample en_reader_sample mixed_reader_sample "id_card"
     = mixed_reader_sample
  /\ H.select_lang "first_name_th" = "tha"%string
  /\ H.select_lang "first_name_en" = "eng"%string
  /\ H.select_lang "religion" = "tha+eng"%string
  /\ snd (H.read_field sample_heic_env sample_image [] field_inside w0)
     = log_ocr ["tha+eng"%string] (region sample_image field_inside) w0
  /\ snd (E.read_field th_reader_sample en_reader_sample mixed_reader_sample
            sample_image [] field_inside w0)
     = log_ocr ["th"%string] (region sample_image field_inside) w0.
Proof.
  pose proof (language_hint_tables th_reader_sample en_reader_sample
                mixed_reader_sample "religion") as (T1 & _ & _ & _ & _ & T6 & T7 & T8).
  pose proof (language_hint_tables th_reader_sample en_reader_sample
                mixed_reader_sample "date_of_birth_en") as (_ & T2 & _).
  pose proof (language_hint_tables th_reader_sample en_reader_sample
                mixed_reader_sample "id_card") as (_ & _ & T3 & _).
  pose proof (language_hint_tables th_reader_sample en_reader_sample
                mixed_reader_sample "first_name_th") as (_ & _ & _ & T4 & _).
  pose proof (language_hint_tables th_reader_sample en_reader_sample
                mixed_reader_sample "first_name_en") as (_ & _ & _ & _ & T5 & _).
  refine (conj _ (conj _ (conj _ (conj _ (conj _ (conj _ (conj _ _))))))).
  - apply T1. simpl. tauto.
  - apply T2. simpl. tauto.
  - apply T3; simpl; intuition discriminate.
  - apply T4. simpl. tauto.
  - apply T5. simpl. tauto.
  - apply T6; simpl; intuition discriminate.
  - apply (T7 sample_heic_env sample_image [] field_inside w0). reflexivity.
  - apply (T8 sample_image [] field_inside w0). reflexivity.
Defined.

(** C7, as stated, fails in the pytesseract variant: religion and the Thai
    and English dates do not get the Thai or the English hint. *)
Lemma select_lang_religion_not_thai :
  H.select_lang "religion" <> "tha"%string
  /\ H.select_lang "date_of_birth_th" <> "tha"%string
  /\ H.select_lang "date_of_birth_en" <> "eng"%string.
Proof. repeat split; discriminate. Qed.

(** ** Zero-area field regions *)

Lemma NoDup_map_inj {A B} (g : A -> B) (l : list A) (x y : A) :
  NoDup (map g l) -> In x l -> In y l -> g x = g y -> x = y.
Proof.
  induction l as [|a l IH]; simpl; [tauto|].
  intros Hnd Hx Hy Hg. inversion Hnd as [|? ? Hnot Hnd']; subst.
  destruct Hx as [-> | Hx], Hy as [-> | Hy]; auto.
  - exfalso. apply Hnot. rewrite Hg. now apply in_map.
  - exfalso. apply Hnot. rewrite <- Hg. now apply in_map.
Qed.

Lemma only_nonempty_calls_refl w : only_nonempty_calls w w.
Proof. now exists []. Qed.

Lemma only_nonempty_calls_trans w1 w2 w3 :
  only_nonempty_calls w1 w2 -> only_nonempty_calls w2 w3 -> only_nonempty_calls w1 w3.
Proof.
  intros (c1 & E1 & F1) (c2 & E2 & F2). exists (c2 ++ c1). split.
  - now rewrite E2, E1, app_assoc.
  - apply Forall_app. now split.
Qed.

Lemma only_nonempty_calls_log w langs r :
  0 < size r -> only_nonempty_calls w (log_ocr langs r w).
Proof. intros Hr. exists [(langs, r)]. split; [reflexivity | now repeat constructor]. Qed.

Section HeicReader.
Variable env : H.Env.
Variable img : image.

Lemma H_read_field_skip acc f w :
  size (region img f) = 0 -> H.read_field env img acc f w = (Return acc, w).
Proof.
  intros Hs. unfold H.read_field. fold (region img f). now rewrite Hs.
Qed.

Lemma H_read_fields_skip f l2 : forall l1 acc w,
  size (region img f) = 0 ->
  H.read_fields env img acc (l1 ++ f :: l2) w = H.read_fields env img acc (l1 ++ l2) w.
Proof.
  induction l1 as [|g l1 IH]; intros acc w Hs; simpl.
  - unfold bind. now rewrite H_read_field_skip.
  - unfold bind. destruct (H.read_field env img acc g w) as [[acc'|e] w1]; [|reflexivity].
    now apply IH.
Qed.

Lemma H_read_field_effect acc f w o w' :
  H.read_field env img acc f w = (o, w') ->
  only_nonempty_calls w w'
  /\ forall d k, o = Return d -> In k (dict_keys d) ->
                 In k (dict_keys acc) \/ (k = label f /\ 0 < size (region img f)).
Proof.
  unfold H.read_field. fold (region img f).
  destruct (size (region img f) >? 0) eqn:Hs.
  - apply Z.gtb_lt in Hs. unfold bind, H.call_tesseract.
    destruct (H.image_to_string env (region img f) (H.select_lang (label f)) "--psm 7")
      as [text|e].
    + destruct (strip text) eqn:Ht; intros [= <- <-];
        (split; [now apply only_nonempty_calls_log|]); intros d k [= <-] Hk.
      * now left.
      * rewrite dict_set_keys in Hk.
        destruct (dict_get (label f) acc); [now left|].
        apply in_app_or in Hk. destruct Hk as [Hk | [<- | []]]; [now left | now right].
    + intros [= <- <-]. split; [now apply only_nonempty_calls_log | discriminate].
  - intros [= <- <-]. split; [apply only_nonempty_calls_refl|].
    intros d k [= <-] Hk. now left.
Qed.

Lemma H_read_fields_effect fs : forall acc w o w',
  H.read_fields env img acc fs w = (o, w') ->
  only_nonempty_calls w w'
  /\ forall d k, o = Return d -> In k (dict_keys d) ->
       In k (dict_keys acc)
       \/ exists f, In f fs /\ label f = k /\ 0 < size (region img f).
Proof.
  induction fs as [|f fs IH]; intros acc w o w'; simpl.
  - intros [= <- <-]. split; [apply only_nonempty_calls_refl|].
    intros d k [= <-] Hk. now left.
  - unfold bind.
    destruct (H.read_field env img acc f w) as [[acc'|e] w1] eqn:Hf.
    + intros Hrest.
      destruct (H_read_field_effect _ _ _ Hf) as [Hc1 Hk1].
      destruct (IH _ _ _ _ Hrest) as [Hc2 Hk2].
      split; [eapply only_nonempty_calls_trans; eauto|].
      intros d k Hd Hk.
      destruct (Hk2 d k Hd Hk) as [Hacc | (g & Hg & Hl & Hs)].
      * destruct (Hk1 acc' k eq_refl Hacc) as [? | [-> Hs]]; [now left|].
        right. exists f. repeat split; simpl; auto.
      * right. exists g. repeat split; simpl; auto.
    + intros [= <- <-].
      destruct (H_read_field_effect _ _ _ Hf) as [Hc1 _].
      split; [exact Hc1 | discriminate].
Qed.

End HeicReader.

Section EasyReader.
Variables th en mx : E.Reader.
Variable img : image.

Lemma E_read_field_skip acc f w :
  size (region img f) = 0 -> E.read_field th en mx img acc f w = (Return acc, w).
Proof.
  intros Hs. unfold E.read_field. fold (region img f). now rewrite Hs.
Qed.

Lemma E_read_fields_skip f l2 : forall l1 acc w,
  size (region img f) = 0 ->
  E.read_fields th en mx img acc (l1 ++ f :: l2) w
  = E.read_fields th en mx img acc (l1 ++ l2) w.
Proof.
  induction l1 as [|g l1 IH]; intros acc w Hs; simpl.
  - unfold bind. now rewrite E_read_field_skip.
  - unfold bind.
    destruct (E.read_field th en mx img acc g w) as [[acc'|e] w1]; [|reflexivity].
    now apply IH.
Qed.

Lemma E_read_field_effect acc f w o w' :
  E.read_field th en mx img acc f w = (o, w') ->
  only_nonempty_calls w w'
  /\ forall d k, o = Return d -> In k (dict_keys d) ->
                 In k (dict_keys acc) \/ (k = label f /\ 0 < size (region img f)).
Proof.
  unfold E.read_field. fold (region img f).
  destruct (size (region img f) >? 0) eqn:Hs.
  - apply Z.gtb_lt in Hs. unfold bind, E.call_readtext.
    destruct (E.readtext (E.select_reader th en mx (label f)) (region img f))
      as [result|e].
    + destruct result eqn:Ht; intros [= <- <-];
        (split; [now apply only_nonempty_calls_log|]); intros d k [= <-] Hk.
      * now left.
      * rewrite dict_set_keys in Hk.
        destruct (dict_get (label f) acc); [now left|].
        apply in_app_or in Hk. destruct Hk as [Hk | [<- | []]]; [now left | now right].
    + intros [= <- <-]. split; [now apply only_nonempty_calls_log | discriminate].
  - intros [= <- <-]. split; [apply only_nonempty_calls_refl|].
    intros d k [= <-] Hk. now left.
Qed.

Lemma E_read_fields_effect fs : forall acc w o w',
  E.read_fields th en mx img acc fs w = (o, w') ->
  only_nonempty_calls w w'
  /\ forall d k, o = Return d -> In k (dict_keys d) ->
       In k (dict_keys acc)
       \/ exists f, In f fs /\ label f = k /\ 0 < size (region img f).
Proof.
  induction fs as [|f fs IH]; intros acc w o w'; simpl.
  - intros [= <- <-]. split; [apply only_nonempty_calls_refl|].
    intros d k [= <-] Hk. now left.
  - unfold bind.
    destruct (E.read_field th en mx img acc f w) as [[acc'|e] w1] eqn:Hf.
    + intros Hrest.
      destruct (E_read_field_effect _ _ _ Hf) as [Hc1 Hk1].
      destruct (IH _ _ _ _ Hrest) as [Hc2 Hk2].
      split; [eapply only_nonempty_calls_trans; eauto|].
      intros d k Hd Hk.
      destruct (Hk2 d k Hd Hk) as [Hacc | (g & Hg & Hl & Hs)].
      * destruct (Hk1 acc' k eq_refl Hacc) as [? | [-> Hs]]; [now left|].
        right. exists f. repeat split; simpl; auto.
      * right. exists g. repeat split; simpl; auto.
    + intros [= <- <-].
      destruct (E_read_field_effect _ _ _ Hf) as [Hc1 _].
      split; [exact Hc1 | discriminate].
Qed.

End EasyReader.

(** C6. A field whose box cuts a zero-area region out of the cropped card is
    skipped by [read_text_from_fields] in both variants: the run is the run
    without that field (same result or same exception, same world), every
    call made to the OCR backend is on a region of positive size, so never on
    this one, and a field set with one detection per label yields a raw map
    without this field's label. *)
Theorem zero_area_field_skipped :
  forall (img : image) (l1 l2 : list Detection) (f : Detection),
    size (region img f) = 0 ->
    (forall env : H.Env,
        (forall w, H.read_text_from_fields env img (l1 ++ f :: l2) w
                   = H.read_text_from_fields env img (l1 ++ l2) w)
        /\ (forall w o w',
              H.read_text_from_fields env img (l1 ++ f :: l2) w = (o, w') ->
              exists calls,
                ocr_calls w' = calls ++ ocr_calls w
                /\ Forall (fun c => 0 < size (snd c)) calls
                /\ forall langs, ~ In (langs, region img f) calls)
        /\ (NoDup (map label (l1 ++ f :: l2)) ->
            forall w d w',
              H.read_text_from_fields env img (l1 ++ f :: l2) w = (Return d, w') ->
              dict_get (label f) d = None))
    /\
    (forall th en mx : E.Reader,
        (forall w, E.read_text_from_fields th en mx img (l1 ++ f :: l2) w
                   = E.read_text_from_fields th en mx img (l1 ++ l2) w)
        /\ (forall w o w',
              E.read_text_from_fields th en mx img (l1 ++ f :: l2) w = (o, w') ->
              exists calls,
                ocr_calls w' = calls ++ ocr_calls w
                /\ Forall (fun c => 0 < size (snd c)) calls
                /\ forall langs, ~ In (langs, region img f) calls)
        /\ (NoDup (map label (l1 ++ f :: l2)) ->
            forall w d w',
              E.read_text_from_fields th en mx img (l1 ++ f :: l2) w = (Return d, w') ->
              dict_get (label f) d = None)).
Proof.
  intros img l1 l2 f Hs.
  assert (Hcalls : forall w w', only_nonempty_calls w w' ->
            exists calls,
              ocr_calls w' = calls ++ ocr_calls w
              /\ Forall (fun c => 0 < size (snd c)) calls
              /\ forall langs, ~ In (langs, region img f) calls).
  { intros w w' (calls & Hc & Hall). exists calls. repeat split; auto.
    intros langs Hin. rewrite Forall_forall in Hall.
    apply Hall in Hin. simpl in Hin. lia. }
  assert (Hkey : forall d : dict pystr,
            NoDup (map label (l1 ++ f :: l2)) ->
            (forall k, In k (dict_keys d) ->
               In k (@dict_keys pystr [])
               \/ exists g, In g (l1 ++ f :: l2) /\ label g = k
                            /\ 0 < size (region img g)) ->
            dict_get (label f) d = None).
  { intros d Hnd Hk. apply dict_get_None. intros Hin.
    destruct (Hk _ Hin) as [[] | (g & Hg & Hl & Hpos)].
    assert (g = f).
    { apply (NoDup_map_inj label (l1 ++ f :: l2)); auto.
      apply in_or_app. right. now left. }
    subst g. lia. }
  split.
  - intros env. split; [|split].
    + intros w. now apply H_read_fields_skip.
    + intros w o w' Hrun. apply Hcalls.
      now destruct (H_read_fields_effect _ _ _ _ _ Hrun).
    + intros Hnd w d w' Hrun. apply Hkey; [exact Hnd|].
      intros k Hk. destruct (H_read_fields_effect _ _ _ _ _ Hrun) as [_ Hkeys].
      now apply (Hkeys d).
  - intros th en mx. split; [|split].
    + intros w. now apply E_read_fields_skip.
    + intros w o w' Hrun. apply Hcalls.
      now destruct (E_read_fields_effect _ _ _ _ _ _ _ Hrun).
    + intros Hnd w d w' Hrun. apply Hkey; [exact Hnd|].
      intros k Hk. destruct (E_read_fields_effect _ _ _ _ _ _ _ Hrun) as [_ Hkeys].
      now apply (Hkeys d).
Qed.

Lemma zero_area_field_skipped_witness :
  (H.read_text_from_fields sample_heic_env sample_image [field_inside; field_outside] w0
   = H.read_text_from_fields sample_heic_env sample_image [field_inside] w0
   /\ forall w d w',
        H.read_text_from_fields sample_heic_env sample_image
          [field_inside; field_outside] w = (Return d, w') ->
        dict_get "first_name_en" d = None)
  /\
  (E.read_text_from_fields th_reader_sample en_reader_sample mixed_reader_sample
     sample_image [field_inside; field_outside] w0
   = E.read_text_from_fields th_reader_sample en_reader_sample mixed_reader_sample
       sample_image [field_inside] w0
   /\ forall w d w',
        E.read_text_from_fields th_reader_sample en_reader_sample mixed_reader_sample
          sample_image [field_inside; field_outside] w = (Return d, w') ->
        dict_get "first_name_en" d = None).
Proof.
  assert (Hs : size (region sample_image field_outside) = 0) by reflexivity.
  assert (Hnd : NoDup (map label ([field_inside] ++ field_outside :: []))).
  { simpl. repeat constructor; simpl; intuition discriminate. }
  destruct (@zero_area_field_skipped sample_image [field_inside] [] field_outside Hs)
    as [Hh He].
  split.
  - destruct (Hh sample_heic_env) as (H1 & _ & H3).
    split; [apply (H1 w0) | apply (H3 Hnd)].
  - destruct (He th_reader_sample en_reader_sample mixed_reader_sample) as (H1 & _ & H3).
    split; [apply (H1 w0) | apply (H3 Hnd)].
Defined.

(** On the samples: the field inside the card is read, the one outside is
    not, and reading goes through. *)
Example read_text_from_fields_sample :
  H.read_text_from_fields sample_heic_env sample_image [field_inside; field_outside] w0
  = (Return [("religion"%string, lit "12-3")],
     {| files := [];
        ocr_calls := [(["tha+eng"%string], [[(10, 20, 30); (11, 21, 31)]])] |}).
Proof. reflexivity. Qed.

(** ** Undecodable input *)

(** C10. When the image reader yields no image for the path, [crop_card]
    returns neither a card nor detection results, and, the models being
    loaded, [run_ocr_pipeline] raises the 400 "Could not detect an ID card in
    the image." exception and leaves the world as it was: no visualization
    or other artifact is written. *)
Theorem undecodable_image_is_card_not_found :
  forall (image_path output_dir : string) (w : world),
    (forall (env : H.Env) (card_detector text_detector : YOLO),
        cv2_imread (H.host env) image_path = None ->
        H.CARD_DETECTOR env = Some card_detector ->
        H.TEXT_DETECTOR env = Some text_detector ->
        H.crop_card env card_detector image_path w = (Return (None, None), w)
        /\ H.run_ocr_pipeline env image_path output_dir w
           = (Raise (HTTPException 400 "Could not detect an ID card in the image."), w))
    /\
    (forall (env : E.Env) (card_detector text_detector : YOLO)
            (th_reader en_reader mixed_reader : E.Reader),
        cv2_imread (E.host env) image_path = None ->
        E.CARD_DETECTOR env = Some card_detector ->
        E.TEXT_DETECTOR env = Some text_detector ->
        E.TH_READER env = Some th_reader ->
        E.EN_READER env = Some en_reader ->
        E.MIXED_READER env = Some mixed_reader ->
        E.crop_card env card_detector image_path w = (Return (None, None), w)
        /\ E.run_ocr_pipeline env image_path output_dir w
           = (Raise (HTTPException 400 "Could not detect an ID card in the image."), w)).
Proof.
  intros image_path output_dir w. split.
  - intros env cd td Him Hcd Htd. split.
    + unfold H.crop_card. now rewrite Him.
    + unfold H.run_ocr_pipeline. rewrite Hcd, Htd.
      unfold bind, H.crop_card. now rewrite Him.
  - intros env cd td th en mx Him Hcd Htd Hth Hen Hmx. split.
    + unfold E.crop_card. now rewrite Him.
    + unfold E.run_ocr_pipeline. rewrite Hcd, Htd, Hth, Hen, Hmx.
      unfold bind, E.crop_card. now rewrite Him.
Qed.

Lemma undecodable_image_is_card_not_found_witness :
  (H.crop_card sample_heic_env sample_card_detector "bad" w0 = (Return (None, None), w0)
   /\ H.run_ocr_pipeline sample_heic_env "bad" "output_logs" w0
      = (Raise (HTTPException 400 "Could not detect an ID card in the image."), w0))
  /\
  (E.crop_card sample_easyocr_env sample_card_detector "bad" w0 = (Return (None, None), w0)
   /\ E.run_ocr_pipeline sample_easyocr_env "bad" "output_logs" w0
      = (Raise (HTTPException 400 "Could not detect an ID card in the image."), w0)).
Proof.
  destruct (undecodable_image_is_card_not_found "bad" "output_logs" w0) as [Hh He].
  split.
  - apply (Hh sample_heic_env sample_card_detector sample_text_detector); reflexivity.
  - apply (He sample_easyocr_env sample_card_detector sample_text_detector
              th_reader_sample en_reader_sample mixed_reader_sample); reflexivity.
Defined.

(** ** Exception routing at the endpoint *)

Lemma os_remove_raises (h : Host) (p : string) (w w' : world) (e : exn) :
  os_remove h p w = (Raise e, w') -> exists msg, e = Exception msg.
Proof.
  unfold os_remove. destruct (os_remove_error h p) as [msg|]; [|discriminate].
  intros [= <- _]. now exists msg.
Qed.

Lemma os_remove_twice_raises (h : Host) (p q : string) (w w' : world) (e : exn) :
  (os_remove h p ;;; os_remove h q) w = (Raise e, w') -> exists msg, e = Exception msg.
Proof.
  unfold bind. destruct (os_remove h p w) as [[u|e1] w1] eqn:H1.
  - apply os_remove_raises.
  - intros [= <- _]. eapply os_remove_raises. exact H1.
Qed.

(** In the pytesseract variant the single [except Exception] clause also
    catches the pipeline's own [HTTPException]s: an [HTTPException] that
    leaves the endpoint always has status 500. *)
Lemma H_process_thai_id_only_500 env file w c d w' :
  H.process_thai_id env file w = (Raise (HTTPException c d), w') -> c = 500.
Proof.
  unfold H.process_thai_id, bind at 1 2, guard_error at 1 2.
  destruct (makedirs_error (H.host env) "temp_uploads"); [discriminate|].
  destruct (makedirs_error (H.host env) "output_logs"); [discriminate|].
  cbn [ret]. unfold finally.
  destruct (try_except _ _ w) as [o1 w1] eqn:Hbody.
  destruct ((os_remove (H.host env) _ ;;; os_remove (H.host env) _) w1)
    as [[u|e] w2] eqn:Hclean.
  - intros [= -> _]. unfold try_except in Hbody.
    match type of Hbody with (match ?b with _ => _ end) = _ =>
      destruct b as [[a|e0] w0'] end.
    + discriminate.
    + cbn [raise] in Hbody. now injection Hbody as <- _.
  - intros [= -> _]. apply os_remove_twice_raises in Hclean.
    destruct Hclean as (msg & Hmsg). discriminate.
Qed.

(** The EasyOCR variant re-raises them: with the staging of the upload going
    through and the clean-up not raising, a failed start-up surfaces as 503. *)
Lemma E_process_thai_id_unloaded env file w :
  makedirs_error (E.host env) "temp_uploads" = None ->
  makedirs_error (E.host env) "output_logs" = None ->
  open_error (E.host env) (path_join "temp_uploads" (filename file)) = None ->
  os_remove_error (E.host env) (path_join "temp_uploads" (filename file)) = None ->
  (E.CARD_DETECTOR env = None \/ E.TEXT_DETECTOR env = None \/ E.TH_READER env = None
   \/ E.EN_READER env = None \/ E.MIXED_READER env = None) ->
  fst (E.process_thai_id env file w)
  = Raise (HTTPException 503 "Models are not loaded. API is unavailable.").
Proof.
  intros Hm1 Hm2 Ho Hrm Hnone.
  unfold E.process_thai_id, bind at 1 2, guard_error at 1 2. rewrite Hm1, Hm2. cbn [ret].
  unfold finally, os_remove. rewrite Hrm.
  unfold try_except, bind. rewrite Ho. cbn [guard_error ret modify].
  unfold E.run_ocr_pipeline.
  destruct (E.CARD_DETECTOR env), (E.TEXT_DETECTOR env), (E.TH_READER env),
    (E.EN_READER env), (E.MIXED_READER env);
    try reflexivity.
  exfalso. intuition discriminate.
Qed.

(** C1 at its failing inputs. With no model loaded, and with a photo on which
    the card detector finds nothing, the pytesseract endpoint answers 500,
    where the EasyOCR endpoint answers 503 and 400 on the same requests. *)
Theorem heic_endpoint_masks_503_and_400 :
  fst (H.process_thai_id unloaded_heic_env card_jpg w0)
  = Raise (HTTPException 500
      "An internal server error occurred: 503: Models are not loaded. API is unavailable.")
  /\ fst (H.process_thai_id no_card_heic_env card_jpg w0)
     = Raise (HTTPException 500
         "An internal server error occurred: 400: Could not detect an ID card in the image.")
  /\ fst (E.process_thai_id unloaded_easyocr_env card_jpg w0)
     = Raise (HTTPException 503 "Models are not loaded. API is unavailable.")
  /\ fst (E.process_thai_id no_card_easyocr_env card_jpg w0)
     = Raise (HTTPException 400 "Could not detect an ID card in the image.").
Proof. repeat split; vm_compute; reflexivity. Qed.

(** ** Debug side effects *)




Lemma same_outcome_lift {A} (o : outcome A) : same_outcome (lift o) (lift o).
Proof. intros w1 w2. reflexivity. Qed.




Section HeicSideEffects.
Variable env : H.Env.



Lemma H_crop_card_results model p w c r w' :
  H.crop_card env model p w = (Return (Some c, r), w') -> exists res, r = Some res.
Proof.
  unfold H.crop_card, bind, lift.
  destruct (cv2_imread (H.host env) p) as [img|]; [|discriminate].
  destruct (predict model _ _ _) as [res|e]; [|discriminate].
  destruct (List.length (boxes res) =? 0)%nat; [discriminate|].
  destruct (nth _ _ _) as [[[x1 y1] x2] y2].
  destruct (size _ >? 0); [|discriminate].
  intros [= _ <- _]. now exists res.
Qed.









End HeicSideEffects.

Section EasySideEffects.
Variable env : E.Env.



Lemma E_crop_card_results model p w c r w' :
  E.crop_card env model p w = (Return (Some c, r), w') -> exists res, r = Some res.
Proof.
  unfold E.crop_card, bind, lift.
  destruct (cv2_imread (E.host env) p) as [img|]; [|discriminate].
  destruct (predict model _ _ _) as [res|e]; [|discriminate].
  destruct (List.length (boxes res) =? 0)%nat; [discriminate|].
  destruct (nth _ _ _) as [[[x1 y1] x2] y2].
  destruct (size _ >? 0); [|discriminate].
  intros [= _ <- _]. now exists res.
Qed.









End EasySideEffects.




(** ** The two variants of [crop_card] *)

Lemma slice_map {A B} (f : A -> B) (lo hi : Z) (l : list A) :
  slice lo hi (map f l) = map f (slice lo hi l).
Proof.
  unfold slice. rewrite length_map, skipn_map, firstn_map. reflexivity.
Qed.

Lemma gray3_map (h : Host) (img : image) :
  gray3 h img = map (map (fun p => (luma h p, luma h p, luma h p))) img.
Proof.
  unfold gray3, GRAY2BGR, BGR2GRAY. rewrite map_map.
  apply map_ext. intros r. now rewrite map_map.
Qed.

Lemma crop_gray3 (h : Host) (img : image) (y1 y2 x1 x2 : Z) :
  crop (gray3 h img) y1 y2 x1 x2 = gray3 h (crop img y1 y2 x1 x2).
Proof.
  rewrite !gray3_map. unfold crop.
  rewrite slice_map, !map_map. apply map_ext. intros r. apply slice_map.
Qed.

Lemma shape0_gray3 (h : Host) (img : image) : shape0 (gray3 h img) = shape0 img.
Proof. rewrite gray3_map. unfold shape0. now rewrite length_map. Qed.

Lemma shape1_gray3 (h : Host) (img : image) : shape1 (gray3 h img) = shape1 img.
Proof.
  rewrite gray3_map. destruct img as [|r img]; simpl; [reflexivity|].
  now rewrite length_map.
Qed.

Lemma size_gray3 (h : Host) (img : image) : size (gray3 h img) = size img.
Proof.
  rewrite gray3_map. unfold size. f_equal.
  induction img as [|r img IH]; simpl; [reflexivity|].
  now rewrite length_map, IH.
Qed.

Lemma crop_card_gray_of_colour (envH : H.Env) (envE : E.Env) (model : YOLO)
    (image_path : string) (w : world) :
  H.host envH = E.host envE ->
  (forall img, cv2_imread (H.host envH) image_path = Some img ->
     predict model (gray3 (H.host envH) img) (1#4) None
     = predict model (gray3 (H.host envH) img) (1#4) (Some (1#4))) ->
  E.crop_card envE model image_path w
  = (match fst (H.crop_card envH model image_path w) with
     | Return (card, results) =>
         Return (option_map (gray3 (H.host envH)) card, results)
     | Raise e => Raise e
     end, w).
Proof.
  intros Hhost Hsame. unfold E.crop_card, H.crop_card. rewrite <- Hhost.
  destruct (cv2_imread (H.host envH) image_path) as [img|] eqn:Him; [|reflexivity].
  unfold bind, lift. fold (gray3 (H.host envH) img).
  rewrite <- (Hsame img eq_refl).
  destruct (predict model (gray3 (H.host envH) img) (1#4) None) as [r|e];
    [|reflexivity].
  destruct (List.length (boxes r) =? 0)%nat; [reflexivity|].
  destruct (nth _ _ _) as [[[x1 y1] x2] y2].
  rewrite shape0_gray3, shape1_gray3, crop_gray3, size_gray3.
  destruct (size _ >? 0); reflexivity.
Qed.

(** C9, as the code has it. Given identical detector outputs on the decoded
    image, both variants pick the same best box, clip it the same way and return the same
    detection results, and [detect_text_fields] returns the same field set;
    but the pytesseract variant crops the decoded colour image while the
    EasyOCR variant crops its grey conversion: the EasyOCR card is the
    pytesseract card with every pixel replaced by its luminance on the three
    channels, and the two are equal when the decoded image is already grey. *)
Theorem crop_card_same_box_other_pixels :
  forall (envH : H.Env) (envE : E.Env) (model : YOLO) (image_path : string)
         (w : world),
    H.host envH = E.host envE ->
    (forall img, cv2_imread (H.host envH) image_path = Some img ->
       predict model (gray3 (H.host envH) img) (1#4) None
       = predict model (gray3 (H.host envH) img) (1#4) (Some (1#4))) ->
    E.crop_card envE model image_path w
    = (match fst (H.crop_card envH model image_path w) with
       | Return (card, results) =>
           Return (option_map (gray3 (H.host envH)) card, results)
       | Raise e => Raise e
       end, w)
    /\ ((forall img, cv2_imread (H.host envH) image_path = Some img ->
                     gray3 (H.host envH) img = img) ->
        E.crop_card envE model image_path w = H.crop_card envH model image_path w)
    /\ (forall img,
          predict model img (1#4) None = predict model img (1#100) (Some (1#4)) ->
          E.detect_text_fields model (Some img) w
          = H.detect_text_fields model (Some img) w).
Proof.
  intros envH envE model image_path w Hhost Hsame. split; [|split].
  - now apply crop_card_gray_of_colour.
  - intros Hgrey. unfold E.crop_card, H.crop_card. rewrite <- Hhost.
    destruct (cv2_imread (H.host envH) image_path) as [img|] eqn:Him; [|reflexivity].
    fold (gray3 (H.host envH) img).
    unfold bind, lift. rewrite <- (Hsame img eq_refl).
    rewrite (Hgrey img eq_refl). reflexivity.
  - intros img Hp. unfold E.detect_text_fields, H.detect_text_fields, bind, lift.
    rewrite <- Hp. reflexivity.
Qed.

Lemma crop_card_same_box_other_pixels_witness :
  E.crop_card sample_easyocr_env sample_card_detector staged_png w0
  = (Return (Some [[(22, 22, 22); (23, 23, 23)]; [(52, 52, 52); (53, 53, 53)]],
             Some sample_card_results), w0)
  /\ fst (H.crop_card sample_heic_env sample_card_detector staged_png w0)
     = Return (Some [[(10, 20, 30); (11, 21, 31)]; [(40, 50, 60); (41, 51, 61)]],
               Some sample_card_results)
  /\ E.detect_text_fields sample_card_detector (Some sample_image) w0
     = H.detect_text_fields sample_card_detector (Some sample_image) w0.
Proof.
  destruct (@crop_card_same_box_other_pixels sample_heic_env sample_easyocr_env
              sample_card_detector staged_png w0 eq_refl (fun _ _ => eq_refl))
    as (Hcrop & _ & Hdet).
  split; [|split].
  - rewrite Hcrop. reflexivity.
  - reflexivity.
  - apply Hdet. reflexivity.
Defined.

(** C9, as stated, fails: with the same detector output on the same decoded
    image the two variants return different cropped cards. *)
Lemma crop_card_variants_differ :
  predict sample_card_detector (gray3 sample_host sample_image) (1#4) None
  = predict sample_card_detector (gray3 sample_host sample_image) (1#4) (Some (1#4))
  /\ fst (H.crop_card sample_heic_env sample_card_detector staged_png w0)
     <> fst (E.crop_card sample_easyocr_env sample_card_detector staged_png w0).
Proof.
  split; [reflexivity|]. vm_compute. discriminate.
Qed.

(** * Further properties of the two files *)

(** ** [crop_card]: which box, which pixels *)

Lemma first_max_step (pre : list Q) (x : Q) (bi : nat) :
  first_max pre bi ->
  first_max (pre ++ [x])
    (if Qgtb x (nth bi pre 0%Q) then List.length pre else bi).
Proof.
  intros (Hlt & Hmax & Hfirst).
  destruct (Qgtb x (nth bi pre 0%Q)) eqn:Hgt.
  - apply Qgtb_true in Hgt. split; [rewrite length_app; simpl; lia|]. split.
    + intros j Hj. rewrite length_app in Hj. simpl in Hj.
      rewrite (nth_middle pre [] x 0%Q).
      destruct (Nat.eq_dec j (List.length pre)) as [-> | Hne].
      * rewrite (nth_middle pre [] x 0%Q). apply Qle_refl.
      * rewrite app_nth1 by lia. apply Qlt_le_weak.
        eapply Qle_lt_trans; [apply Hmax; lia | exact Hgt].
    + intros j Hj. rewrite (nth_middle pre [] x 0%Q), app_nth1 by lia.
      eapply Qle_lt_trans; [apply Hmax; lia | exact Hgt].
  - apply Qgtb_false in Hgt. split; [rewrite length_app; simpl; lia|]. split.
    + intros j Hj. rewrite length_app in Hj. simpl in Hj.
      rewrite (app_nth1 pre [x] 0%Q Hlt).
      destruct (Nat.eq_dec j (List.length pre)) as [-> | Hne].
      * rewrite (nth_middle pre [] x 0%Q). exact Hgt.
      * rewrite app_nth1 by lia. apply Hmax. lia.
    + intros j Hj. rewrite (app_nth1 pre [x] 0%Q Hlt), app_nth1 by lia.
      now apply Hfirst.
Qed.

Lemma argmax_go_first_max (l : list Q) : forall (pre : list Q) (bi : nat),
  first_max pre bi ->
  first_max (pre ++ l) (argmax_go (nth bi pre 0%Q) bi (List.length pre) l).
Proof.
  induction l as [|x l IH]; intros pre bi Hfm; simpl.
  - now rewrite app_nil_r.
  - pose proof (first_max_step x Hfm) as Hstep.
    replace (pre ++ x :: l) with ((pre ++ [x]) ++ l) by (now rewrite <- app_assoc).
    destruct Hfm as (Hlt & _).
    destruct (Qgtb x (nth bi pre 0%Q)) eqn:Hgt.
    + specialize (IH _ _ Hstep).
      rewrite (nth_middle pre [] x 0%Q) in IH.
      rewrite length_app in IH. simpl in IH.
      now rewrite Nat.add_1_r in IH.
    + specialize (IH _ _ Hstep).
      rewrite (app_nth1 pre [x] 0%Q Hlt) in IH.
      rewrite length_app in IH. simpl in IH.
      now rewrite Nat.add_1_r in IH.
Qed.

(** [np.argmax] on a non-empty list is the first index of the maximum. *)
Lemma argmax_first_max (l : list Q) : l <> [] -> first_max l (argmax l).
Proof.
  destruct l as [|x l]; [congruence|]. intros _.
  apply (@argmax_go_first_max l [x] 0%nat).
  repeat split; simpl.
  - lia.
  - intros j Hj. replace j with 0%nat by lia. apply Qle_refl.
  - intros j Hj. lia.
Qed.

Lemma nth_box_astype (i : nat) (bs : list raw_box) :
  nth i (map (fun b => box_astype_int (xyxy b)) bs) (0, 0, 0, 0)
  = box_astype_int (xyxy (nth i bs zero_box)).
Proof.
  change (0, 0, 0, 0) with ((fun b => box_astype_int (xyxy b)) zero_box).
  apply map_nth.
Qed.

Lemma H_crop_card_found (env : H.Env) model image_path img results w :
  cv2_imread (H.host env) image_path = Some img ->
  predict model (gray3 (H.host env) img) (1#4) None = Return results ->
  boxes results <> [] ->
  H.crop_card env model image_path w
  = (Return (card_of (clip_crop img
               (box_astype_int
                  (xyxy (nth (argmax (map conf (boxes results))) (boxes results)
                             zero_box)))),
             Some results), w).
Proof.
  intros Him Hp Hne. unfold H.crop_card. rewrite Him.
  fold (gray3 (H.host env) img). unfold bind, lift. rewrite Hp.
  destruct (boxes results) as [|b0 bs] eqn:Hb; [congruence|].
  cbn [List.length Nat.eqb]. rewrite nth_box_astype.
  destruct (box_astype_int _) as [[[x1 y1] x2] y2].
  unfold card_of, clip_crop. destruct (size _ >? 0); reflexivity.
Qed.

Lemma E_crop_card_found (env : E.Env) model image_path img results w :
  cv2_imread (E.host env) image_path = Some img ->
  predict model (gray3 (E.host env) img) (1#4) (Some (1#4)) = Return results ->
  boxes results <> [] ->
  E.crop_card env model image_path w
  = (Return (card_of (clip_crop (gray3 (E.host env) img)
               (box_astype_int
                  (xyxy (nth (argmax (map conf (boxes results))) (boxes results)
                             zero_box)))),
             Some results), w).
Proof.
  intros Him Hp Hne. unfold E.crop_card. rewrite Him.
  fold (gray3 (E.host env) img). unfold bind, lift. rewrite Hp.
  destruct (boxes results) as [|b0 bs] eqn:Hb; [congruence|].
  cbn [List.length Nat.eqb]. rewrite nth_box_astype.
  destruct (box_astype_int _) as [[[x1 y1] x2] y2].
  unfold card_of, clip_crop. destruct (size _ >? 0); reflexivity.
Qed.

(** X1. When the card detector returns at least one box, with coordinates
    that fit 64-bit integers, [crop_card] cuts the card out at the box of
    highest confidence, the first such box when several share the highest
    value, clipped to the image; an empty cut counts as no card.  The
    pytesseract variant cuts the decoded image, the EasyOCR variant its grey
    conversion. *)
Theorem crop_card_first_best_box :
  forall (model : YOLO) (image_path : string) (img : image) (results : Results)
         (w : world),
    boxes results <> [] ->
    (forall b, In b (boxes results) -> box_in_int64 (xyxy b)) ->
    (forall env : H.Env,
        cv2_imread (H.host env) image_path = Some img ->
        predict model (gray3 (H.host env) img) (1#4) None = Return results ->
        exists i,
          first_max (map conf (boxes results)) i
          /\ H.crop_card env model image_path w
             = (Return (card_of (clip_crop img
                          (box_astype_int (xyxy (nth i (boxes results) zero_box)))),
                        Some results), w))
    /\
    (forall env : E.Env,
        cv2_imread (E.host env) image_path = Some img ->
        predict model (gray3 (E.host env) img) (1#4) (Some (1#4)) = Return results ->
        exists i,
          first_max (map conf (boxes results)) i
          /\ E.crop_card env model image_path w
             = (Return (card_of (clip_crop (gray3 (E.host env) img)
                          (box_astype_int (xyxy (nth i (boxes results) zero_box)))),
                        Some results), w)).
Proof.
  intros model image_path img results w Hne _.
  assert (Hfm : first_max (map conf (boxes results))
                          (argmax (map conf (boxes results)))).
  { apply argmax_first_max. intros Hm. apply map_eq_nil in Hm. contradiction. }
  split; intros env Him Hp; exists (argmax (map conf (boxes results)));
    (split; [exact Hfm|]).
  - now apply H_crop_card_found.
  - now apply E_crop_card_found.
Qed.

Lemma crop_card_first_best_box_witness :
  (exists i,
      first_max (map conf (boxes tied_card_results)) i
      /\ H.crop_card sample_heic_env tied_card_detector staged_png w0
         = (Return (card_of (clip_crop sample_image
                      (box_astype_int (xyxy (nth i (boxes tied_card_results) zero_box)))),
                    Some tied_card_results), w0))
  /\ H.crop_card sample_heic_env tied_card_detector staged_png w0
     = (Return (Some [[(11, 21, 31); (12, 22, 32)]; [(41, 51, 61); (42, 52, 62)]],
                Some tied_card_results), w0).
Proof.
  split.
  - assert (Hne : boxes tied_card_results <> []) by discriminate.
    assert (Hrange : forall b, In b (boxes tied_card_results) -> box_in_int64 (xyxy b)).
    { intros b Hin. simpl in Hin.
      destruct Hin as [<- | [<- | [<- | []]]]; vm_compute; intuition discriminate. }
    apply (proj1 (@crop_card_first_best_box tied_card_detector staged_png
                    sample_image tied_card_results w0 Hne Hrange) sample_heic_env);
      reflexivity.
  - reflexivity.
Defined.

Lemma slice_length {A} (lo hi : Z) (l : list A) :
  0 <= lo -> 0 <= hi <= Z.of_nat (List.length l) ->
  Z.of_nat (List.length (slice lo hi l)) = Z.max 0 (hi - lo).
Proof.
  intros Hlo Hhi. unfold slice, norm_index.
  destruct (Z.ltb_spec lo 0); [lia|]. destruct (Z.ltb_spec hi 0); [lia|].
  rewrite length_firstn, length_skipn. lia.
Qed.

Lemma slice_incl {A} (lo hi : Z) (l : list A) (x : A) :
  In x (slice lo hi l) -> In x l.
Proof.
  unfold slice. intros Hin.
  set (a := Z.to_nat (norm_index (Z.of_nat (List.length l)) lo)) in *.
  set (n := Z.to_nat _) in Hin.
  rewrite <- (firstn_skipn a l). apply in_or_app. right.
  rewrite <- (firstn_skipn n (skipn a l)). apply in_or_app. now left.
Qed.

Lemma size_pos_row (c : image) :
  0 < size c -> exists r, In r c /\ (0 < List.length r)%nat.
Proof.
  unfold size. induction c as [|r c IH]; cbn [fold_right]; [lia|].
  intros Hs. destruct r as [|p r].
  - destruct IH as (r' & Hin & Hr'); [cbn [List.length] in Hs; lia|].
    exists r'. split; [now right | exact Hr'].
  - exists (p :: r). split; [now left | cbn [List.length]; lia].
Qed.

Lemma shape1_nonneg (img : image) : 0 <= shape1 img.
Proof. destruct img; simpl; lia. Qed.

Lemma clip_crop_dimensions (img : image) (x1 y1 x2 y2 : Z) :
  rectangular img -> 0 <= x2 -> 0 <= y2 ->
  0 < size (clip_crop img (x1, y1, x2, y2)) ->
  let c := clip_crop img (x1, y1, x2, y2) in
  shape0 c = Z.min (shape0 img) y2 - Z.max 0 y1
  /\ shape1 c = Z.min (shape1 img) x2 - Z.max 0 x1
  /\ 0 < shape0 c /\ 0 < shape1 c /\ rectangular c.
Proof.
  intros Hrect Hx2 Hy2 Hsize c.
  pose proof (shape1_nonneg img) as Hw.
  assert (Hrows : shape0 c = Z.max 0 (Z.min (shape0 img) y2 - Z.max 0 y1)).
  { unfold c, clip_crop, crop, shape0. rewrite length_map.
    apply slice_length; unfold shape0; lia. }
  assert (Hcols : Forall (fun r => Z.of_nat (List.length r)
                                   = Z.max 0 (Z.min (shape1 img) x2 - Z.max 0 x1)) c).
  { unfold c, clip_crop, crop. apply Forall_forall. intros r Hr.
    apply in_map_iff in Hr. destruct Hr as (r0 & <- & Hr0).
    apply slice_incl in Hr0.
    unfold rectangular in Hrect. rewrite Forall_forall in Hrect.
    specialize (Hrect _ Hr0).
    apply slice_length; lia. }
  destruct (size_pos_row _ Hsize) as (r & Hr & Hlen).
  fold c in Hr.
  assert (Hpos : 0 < Z.min (shape1 img) x2 - Z.max 0 x1).
  { rewrite Forall_forall in Hcols. specialize (Hcols _ Hr). lia. }
  assert (Hs1 : shape1 c = Z.min (shape1 img) x2 - Z.max 0 x1).
  { destruct c as [|r0 c']; [contradiction|]. simpl.
    inversion Hcols; subst. lia. }
  assert (Hs0 : 0 < shape0 c).
  { unfold shape0. destruct c; [contradiction | simpl; lia]. }
  repeat split; try lia.
  unfold rectangular. rewrite Hs1.
  eapply Forall_impl; [|exact Hcols]. intros a Ha. simpl in Ha. lia.
Qed.

Lemma rectangular_gray3 (h : Host) (img : image) :
  rectangular img -> rectangular (gray3 h img).
Proof.
  unfold rectangular. rewrite shape1_gray3, gray3_map. intros Hr.
  apply Forall_map. eapply Forall_impl; [|exact Hr].
  intros r Hl. simpl. now rewrite length_map.
Qed.

Lemma card_of_Some (c card : image) :
  card_of c = Some card -> card = c /\ 0 < size c.
Proof.
  unfold card_of. destruct (size c >? 0) eqn:Hs; [|discriminate].
  intros [= <-]. split; [reflexivity | now apply Z.gtb_lt].
Qed.

(** X2. A card returned by [crop_card] for a decoded image and detector
    boxes whose coordinates fit 64-bit integers and whose right and bottom
    edges are not negative is a non-empty rectangle of exactly the clipped box: its height is
    [min(h, y2) - max(0, y1)] and its width [min(w, x2) - max(0, x1)] for one
    of the boxes, both positive. *)
Theorem crop_card_dimensions :
  forall (model : YOLO) (image_path : string) (img : image) (results : Results)
         (card : image) (w w' : world),
    rectangular img ->
    (forall b, In b (boxes results) -> box_in_int64 (xyxy b)) ->
    (forall b x1 y1 x2 y2,
        In b (boxes results) -> box_astype_int (xyxy b) = (x1, y1, x2, y2) ->
        0 <= x2 /\ 0 <= y2) ->
    (forall env : H.Env,
        cv2_imread (H.host env) image_path = Some img ->
        predict model (gray3 (H.host env) img) (1#4) None = Return results ->
        H.crop_card env model image_path w = (Return (Some card, Some results), w') ->
        exists b x1 y1 x2 y2,
          In b (boxes results) /\ box_astype_int (xyxy b) = (x1, y1, x2, y2)
          /\ shape0 card = Z.min (shape0 img) y2 - Z.max 0 y1
          /\ shape1 card = Z.min (shape1 img) x2 - Z.max 0 x1
          /\ 0 < shape0 card /\ 0 < shape1 card /\ rectangular card)
    /\
    (forall env : E.Env,
        cv2_imread (E.host env) image_path = Some img ->
        predict model (gray3 (E.host env) img) (1#4) (Some (1#4)) = Return results ->
        E.crop_card env model image_path w = (Return (Some card, Some results), w') ->
        exists b x1 y1 x2 y2,
          In b (boxes results) /\ box_astype_int (xyxy b) = (x1, y1, x2, y2)
          /\ shape0 card = Z.min (shape0 img) y2 - Z.max 0 y1
          /\ shape1 card = Z.min (shape1 img) x2 - Z.max 0 x1
          /\ 0 < shape0 card /\ 0 < shape1 card /\ rectangular card).
Proof.
  intros model image_path img results card w w' Hrect _ Hbox.
  assert (Hcommon : forall img0, rectangular img0 ->
            shape0 img0 = shape0 img -> shape1 img0 = shape1 img ->
            boxes results <> [] ->
            card_of (clip_crop img0
                       (box_astype_int
                          (xyxy (nth (argmax (map conf (boxes results)))
                                     (boxes results) zero_box)))) = Some card ->
            exists b x1 y1 x2 y2,
              In b (boxes results) /\ box_astype_int (xyxy b) = (x1, y1, x2, y2)
              /\ shape0 card = Z.min (shape0 img) y2 - Z.max 0 y1
              /\ shape1 card = Z.min (shape1 img) x2 - Z.max 0 x1
              /\ 0 < shape0 card /\ 0 < shape1 card /\ rectangular card).
  { intros img0 Hr0 Hs0 Hs1 Hne Hcard.
    set (i := argmax (map conf (boxes results))) in *.
    assert (Hi : (i < List.length (boxes results))%nat).
    { destruct (argmax_first_max (l := map conf (boxes results))) as (Hlt & _).
      - intros Hm. apply map_eq_nil in Hm. contradiction.
      - now rewrite length_map in Hlt. }
    pose proof (nth_In (boxes results) zero_box Hi) as Hin.
    destruct (box_astype_int (xyxy (nth i (boxes results) zero_box)))
      as [[[x1 y1] x2] y2] eqn:Hb.
    destruct (Hbox _ _ _ _ _ Hin Hb) as [Hx2 Hy2].
    apply card_of_Some in Hcard. destruct Hcard as [-> Hsize].
    destruct (clip_crop_dimensions x1 y1 Hr0 Hx2 Hy2 Hsize)
      as (D0 & D1 & P0 & P1 & R).
    exists (nth i (boxes results) zero_box), x1, y1, x2, y2.
    rewrite <- Hs0, <- Hs1. repeat split; assumption. }
  split; intros env Him Hp Hrun.
  - destruct (boxes results) eqn:Hb.
    + unfold H.crop_card in Hrun. rewrite Him in Hrun.
      fold (gray3 (H.host env) img) in Hrun. unfold bind, lift in Hrun.
      rewrite Hp, Hb in Hrun. discriminate.
    + rewrite <- Hb in *.
      assert (Hnn : boxes results <> []) by (rewrite Hb; discriminate).
      rewrite (H_crop_card_found env model image_path w Him Hp Hnn) in Hrun.
      injection Hrun as Hcard _.
      now apply (Hcommon img).
  - destruct (boxes results) eqn:Hb.
    + unfold E.crop_card in Hrun. rewrite Him in Hrun.
      fold (gray3 (E.host env) img) in Hrun. unfold bind, lift in Hrun.
      rewrite Hp, Hb in Hrun. discriminate.
    + rewrite <- Hb in *.
      assert (Hnn : boxes results <> []) by (rewrite Hb; discriminate).
      rewrite (E_crop_card_found env model image_path w Him Hp Hnn) in Hrun.
      injection Hrun as Hcard _.
      apply (Hcommon (gray3 (E.host env) img)); auto.
      * now apply rectangular_gray3.
      * apply shape0_gray3.
      * apply shape1_gray3.
Qed.

Lemma crop_card_dimensions_witness :
  exists b x1 y1 x2 y2,
    In b (boxes tied_card_results) /\ box_astype_int (xyxy b) = (x1, y1, x2, y2)
    /\ shape0 [[(11, 21, 31); (12, 22, 32)]; [(41, 51, 61); (42, 52, 62)]]
       = Z.min (shape0 sample_image) y2 - Z.max 0 y1
    /\ shape1 [[(11, 21, 31); (12, 22, 32)]; [(41, 51, 61); (42, 52, 62)]]
       = Z.min (shape1 sample_image) x2 - Z.max 0 x1
    /\ 0 < shape0 [[(11, 21, 31); (12, 22, 32)]; [(41, 51, 61); (42, 52, 62)]]
    /\ 0 < shape1 [[(11, 21, 31); (12, 22, 32)]; [(41, 51, 61); (42, 52, 62)]]
    /\ rectangular [[(11, 21, 31); (12, 22, 32)]; [(41, 51, 61); (42, 52, 62)]].
Proof.
  assert (Hrect : rectangular sample_image) by (repeat constructor).
  assert (Hbox : forall b x1 y1 x2 y2,
             In b (boxes tied_card_results) ->
             box_astype_int (xyxy b) = (x1, y1, x2, y2) -> 0 <= x2 /\ 0 <= y2).
  { intros b x1 y1 x2 y2 Hin Hb. simpl in Hin.
    destruct Hin as [<- | [<- | [<- | []]]]; vm_compute in Hb;
      injection Hb as <- <- <- <-; lia. }
  assert (Hrange : forall b, In b (boxes tied_card_results) -> box_in_int64 (xyxy b)).
  { intros b Hin. simpl in Hin.
    destruct Hin as [<- | [<- | [<- | []]]]; vm_compute; intuition discriminate. }
  apply (proj1 (@crop_card_dimensions tied_card_detector staged_png sample_image
                  tied_card_results
                  [[(11, 21, 31); (12, 22, 32)]; [(41, 51, 61); (42, 52, 62)]]
                  w0 w0 Hrect Hrange Hbox) sample_heic_env); reflexivity.
Defined.

(** ** [detect_text_fields]: nothing is lost without repeated labels *)

Lemma dict_set_new {V} (k : string) (v : V) (d : dict V) :
  dict_get k d = None -> dict_set k v d = d ++ [(k, v)].
Proof.
  induction d as [|[k' v'] d IH]; simpl; [reflexivity|].
  destruct (String.eqb k k'); [discriminate|].
  intros Hd. now rewrite IH.
Qed.

Lemma detect_loop_distinct (names : Z -> string) (bs : list raw_box) :
  forall acc : dict Detection,
    NoDup (dict_keys acc ++ map (fun b => label (det_of names b)) bs) ->
    fold_left (H.detect_step names) bs acc
    = acc ++ map (fun b => (label (det_of names b), det_of names b)) bs.
Proof.
  induction bs as [|b bs IH]; intros acc Hnd; simpl.
  - now rewrite app_nil_r.
  - assert (Hnew : dict_get (label (det_of names b)) acc = None).
    { apply dict_get_None. intros Hin.
      simpl in Hnd. apply NoDup_remove_2 in Hnd.
      apply Hnd. apply in_or_app. now left. }
    assert (Hstep : H.detect_step names acc b
                    = acc ++ [(label (det_of names b), det_of names b)]).
    { unfold H.detect_step. fold (det_of names b).
      change (names (astype_int (cls b))) with (label (det_of names b)).
      rewrite Hnew. now apply dict_set_new. }
    rewrite Hstep, IH.
    + now rewrite <- app_assoc.
    + unfold dict_keys. rewrite map_app. simpl.
      rewrite <- app_assoc. exact Hnd.
Qed.

Lemma selected_length (names : Z -> string) (bs : list raw_box) :
  (List.length (selected names bs) <= List.length bs)%nat.
Proof.
  destruct (selected_spec names bs) as (Hnd & Hlab & _).
  rewrite <- (length_map label (selected names bs)).
  rewrite <- (length_map (fun b => label (det_of names b)) bs).
  apply NoDup_incl_length; [exact Hnd|].
  intros l Hl. apply Hlab in Hl. destruct Hl as (b & Hb & <-).
  now apply (in_map (fun b => label (det_of names b))).
Qed.

Lemma selected_distinct (names : Z -> string) (bs : list raw_box) :
  NoDup (map (fun b => names (astype_int (cls b))) bs) ->
  Permutation (selected names bs) (map (det_of names) bs).
Proof.
  intros Hnd. unfold selected.
  rewrite (detect_loop_distinct names bs []) by exact Hnd.
  unfold dict_values. simpl. rewrite map_map. simpl.
  apply sorted_perm.
Qed.

(** X3. [detect_text_fields] never returns more detections than the detector
    reported, and when the reported detections carry pairwise different
    labels it drops none: the returned sequence is a rearrangement of all of
    them. *)
Theorem detect_text_fields_keeps_distinct_labels :
  forall (model : YOLO) (img : image) (results : Results) (w : world),
    (predict model img (1#4) None = Return results ->
     exists dets,
       H.detect_text_fields model (Some img) w = (Return (dets, Some results), w)
       /\ (List.length dets <= List.length (boxes results))%nat
       /\ (NoDup (map (fun b => names model (astype_int (cls b))) (boxes results)) ->
           Permutation dets (map (det_of (names model)) (boxes results))))
    /\
    (predict model img (1#100) (Some (1#4)) = Return results ->
     exists dets,
       E.detect_text_fields model (Some img) w = (Return (dets, Some results), w)
       /\ (List.length dets <= List.length (boxes results))%nat
       /\ (NoDup (map (fun b => names model (astype_int (cls b))) (boxes results)) ->
           Permutation dets (map (det_of (names model)) (boxes results)))).
Proof.
  intros model img results w. split; intros Hp;
    exists (selected (names model) (boxes results));
    (split; [|split; [apply selected_length | apply selected_distinct]]).
  - now apply H_detect_text_fields_eq.
  - now apply E_detect_text_fields_eq.
Qed.

Lemma detect_text_fields_keeps_distinct_labels_witness :
  (exists dets,
      H.detect_text_fields sample_text_detector (Some sample_image) w0
      = (Return (dets, Some three_fields), w0)
      /\ Permutation dets (map (det_of sample_names) (boxes three_fields)))
  /\
  (exists dets,
      E.detect_text_fields sample_text_detector (Some sample_image) w0
      = (Return (dets, Some three_fields), w0)
      /\ Permutation dets (map (det_of sample_names) (boxes three_fields))).
Proof.
  assert (Hnd : NoDup (map (fun b => sample_names (astype_int (cls b)))
                           (boxes three_fields))).
  { simpl. repeat constructor; simpl; intuition discriminate. }
  destruct (detect_text_fields_keeps_distinct_labels
              sample_text_detector sample_image three_fields w0) as [Hh He].
  split.
  - destruct (Hh eq_refl) as (dets & Hrun & _ & Hperm).
    exists dets. split; [exact Hrun | exact (Hperm Hnd)].
  - destruct (He eq_refl) as (dets & Hrun & _ & Hperm).
    exists dets. split; [exact Hrun | exact (Hperm Hnd)].
Defined.

(** ** [read_text_from_fields]: what the raw map holds *)

Lemma filter_snoc {A} (f : A -> bool) (l : list A) (x : A) :
  f x = true -> filter f (l ++ [x]) = filter f l ++ [x].
Proof.
  intros Hx. rewrite filter_app. simpl. now rewrite Hx.
Qed.

Lemma isspace_not_control (c : N) :
  isspace c = false -> negb ((c =? 10) || (c =? 12))%N = true.
Proof.
  intros Hc.
  destruct (N.eqb_spec c 10) as [-> | _]; [discriminate Hc|].
  destruct (N.eqb_spec c 12) as [-> | _]; [discriminate Hc|].
  reflexivity.
Qed.

(** Removing line feeds and form feeds from stripped, non-empty text. *)
Lemma cleaned_text_clean (text : pystr) :
  strip text <> [] ->
  clean_text (re_sub_class (fun c => (c =? 10) || (c =? 12))%N (strip text)).
Proof.
  intros Hne. destruct (strip_trimmed text) as [Hhead Hlast].
  unfold re_sub_class.
  set (keep := fun c : N => negb ((c =? 10) || (c =? 12))%N).
  destruct (strip text) as [|c0 t] eqn:Hs; [congruence|].
  assert (Hc0 : keep c0 = true)
    by exact (isspace_not_control _ (Hhead c0 t eq_refl)).
  destruct (exists_last (l := c0 :: t)) as (t1 & c1 & Ht1); [discriminate|].
  assert (Hc1 : keep c1 = true)
    by exact (isspace_not_control _ (Hlast c1 t1 Ht1)).
  repeat split.
  - cbn [filter]. rewrite Hc0. discriminate.
  - intros c t' Heq. cbn [filter] in Heq. rewrite Hc0 in Heq.
    injection Heq as <- _. exact (Hhead c0 t eq_refl).
  - intros c t' Heq. rewrite Ht1, filter_snoc in Heq by exact Hc1.
    apply app_inj_tail in Heq. destruct Heq as [_ <-].
    exact (Hlast c1 t1 Ht1).
  - intros Hin. apply filter_In in Hin. destruct Hin as [_ Hk]. discriminate.
  - intros Hin. apply filter_In in Hin. destruct Hin as [_ Hk]. discriminate.
Qed.

Section HeicRawMap.
Variable env : H.Env.
Variable img : image.

Local Abbreviation raw_map_inv := (raw_map_inv img).

Lemma raw_map_inv_weaken fs fs' d :
  (forall f, In f fs -> In f fs') -> raw_map_inv fs d -> raw_map_inv fs' d.
Proof.
  intros Hincl (Hnd & Hent). split; [exact Hnd|].
  intros k v Hin. destruct (Hent k v Hin) as (Hc & f & Hf & Hl & Hs).
  split; [exact Hc|]. exists f. auto.
Qed.

Lemma H_read_field_inv acc f w d w' fs :
  raw_map_inv fs acc -> In f fs ->
  H.read_field env img acc f w = (Return d, w') -> raw_map_inv fs d.
Proof.
  intros Hinv Hf. unfold H.read_field. fold (region img f).
  destruct (size (region img f) >? 0) eqn:Hs; [|now intros [= <- _]].
  apply Z.gtb_lt in Hs. unfold bind, H.call_tesseract.
  destruct (H.image_to_string env _ _ _) as [text|e]; [|discriminate].
  pose proof (cleaned_text_clean text) as Hclean.
  destruct (strip text) as [|c0 t] eqn:Hst; [now intros [= <- _]|].
  specialize (Hclean ltac:(discriminate)).
  intros [= <- _]. destruct Hinv as (Hnd & Hent).
  split; [now apply dict_set_NoDup|].
  intros k v Hin. apply dict_set_In in Hin; [|exact Hnd].
  destruct Hin as [[-> ->] | [_ Hin]]; [|now apply Hent].
  split; [exact Hclean|]. exists f. auto.
Qed.

Lemma H_read_fields_inv fs : forall all acc w d w',
  (forall f, In f fs -> In f all) ->
  raw_map_inv all acc ->
  H.read_fields env img acc fs w = (Return d, w') -> raw_map_inv all d.
Proof.
  induction fs as [|f fs IH]; intros all acc w d w' Hincl Hinv; simpl.
  - now intros [= <- _].
  - unfold bind.
    destruct (H.read_field env img acc f w) as [[acc'|e] w1] eqn:Hf; [|discriminate].
    intros Hrest. eapply IH; [| |exact Hrest].
    + intros g Hg. apply Hincl. now right.
    + eapply H_read_field_inv; [exact Hinv | | exact Hf]. apply Hincl. now left.
Qed.

End HeicRawMap.

(** X4. Every entry of the raw map returned by the pytesseract variant's
    [read_text_from_fields] belongs to a field of the input with a non-empty
    region, and its text is never empty, has no whitespace at either end and
    holds no line feed or form feed; no label occurs twice. *)
Theorem read_text_from_fields_clean :
  forall (env : H.Env) (img : image) (fs : list Detection) (w w' : world)
         (d : dict pystr),
    H.read_text_from_fields env img fs w = (Return d, w') ->
    NoDup (dict_keys d)
    /\ forall k v, In (k, v) d ->
         clean_text v
         /\ exists f, In f fs /\ label f = k /\ 0 < size (region img f).
Proof.
  intros env img fs w w' d Hrun.
  unfold H.read_text_from_fields in Hrun.
  eapply H_read_fields_inv; [| |exact Hrun].
  - intros f Hf. exact Hf.
  - split; [constructor | intros k v []].
Qed.

Lemma read_text_from_fields_clean_witness :
  NoDup (dict_keys [("religion"%string, lit "12-3")])
  /\ forall k v, In (k, v) [("religion"%string, lit "12-3")] ->
       clean_text v
       /\ exists f, In f [field_inside; field_outside] /\ label f = k
                    /\ 0 < size (region sample_image f).
Proof.
  apply (@read_text_from_fields_clean sample_heic_env sample_image
           [field_inside; field_outside] w0
           {| files := [];
              ocr_calls := [(["tha+eng"%string], [[(10, 20, 30); (11, 21, 31)]])] |}).
  reflexivity.
Defined.

Lemma H_read_fields_calls env img fs : forall acc w d w',
  H.read_fields env img acc fs w = (Return d, w') ->
  ocr_calls w' = rev (H_calls img fs) ++ ocr_calls w /\ files w' = files w.
Proof.
  induction fs as [|f fs IH]; intros acc w d w'; simpl.
  - intros [= _ <-]. now split.
  - unfold bind.
    destruct (H.read_field env img acc f w) as [[acc'|e] w1] eqn:Hf; [|discriminate].
    intros Hrest. destruct (IH _ _ _ _ Hrest) as [Hc Hfiles].
    unfold H_calls in *. cbn [filter].
    destruct (size (region img f) >? 0) eqn:Hs.
    + apply Z.gtb_lt in Hs.
      pose proof (H_read_field_lang env img acc f w Hs) as Hw1.
      rewrite Hf in Hw1. simpl in Hw1. subst w1.
      rewrite Hc, Hfiles. cbn [map rev log_ocr ocr_calls files].
      rewrite <- app_assoc. now split.
    + unfold H.read_field in Hf. fold (region img f) in Hf. rewrite Hs in Hf.
      injection Hf as _ <-. now split.
Qed.

Lemma E_read_fields_calls th en mx img fs : forall acc w d w',
  E.read_fields th en mx img acc fs w = (Return d, w') ->
  ocr_calls w' = rev (E_calls th en mx img fs) ++ ocr_calls w /\ files w' = files w.
Proof.
  induction fs as [|f fs IH]; intros acc w d w'; simpl.
  - intros [= _ <-]. now split.
  - unfold bind.
    destruct (E.read_field th en mx img acc f w) as [[acc'|e] w1] eqn:Hf;
      [|discriminate].
    intros Hrest. destruct (IH _ _ _ _ Hrest) as [Hc Hfiles].
    unfold E_calls in *. cbn [filter].
    destruct (size (region img f) >? 0) eqn:Hs.
    + apply Z.gtb_lt in Hs.
      pose proof (E_read_field_reader th en mx img acc f w Hs) as Hw1.
      rewrite Hf in Hw1. simpl in Hw1. subst w1.
      rewrite Hc, Hfiles. cbn [map rev log_ocr ocr_calls files].
      rewrite <- app_assoc. now split.
    + unfold E.read_field in Hf. fold (region img f) in Hf. rewrite Hs in Hf.
      injection Hf as _ <-. now split.
Qed.

(** X5. A pass of [read_text_from_fields] that returns has called the OCR
    backend exactly once for every field with a non-empty region, in the
    order of the fields and with the language the variant's table gives the
    field's label, and has written no file. *)
Theorem read_text_from_fields_calls :
  forall (img : image) (fs : list Detection) (w w' : world) (d : dict pystr),
    (forall env : H.Env,
        H.read_text_from_fields env img fs w = (Return d, w') ->
        ocr_calls w' = rev (H_calls img fs) ++ ocr_calls w /\ files w' = files w)
    /\
    (forall th en mx : E.Reader,
        E.read_text_from_fields th en mx img fs w = (Return d, w') ->
        ocr_calls w' = rev (E_calls th en mx img fs) ++ ocr_calls w
        /\ files w' = files w).
Proof.
  intros img fs w w' d. split.
  - intros env Hrun. eapply H_read_fields_calls. exact Hrun.
  - intros th en mx Hrun. eapply E_read_fields_calls. exact Hrun.
Qed.

Lemma read_text_from_fields_calls_witness :
  ocr_calls (snd (H.read_text_from_fields sample_heic_env sample_image
                    [field_outside; field_inside] w0))
  = rev (H_calls sample_image [field_outside; field_inside]) ++ ocr_calls w0
  /\ ocr_calls (snd (E.read_text_from_fields th_reader_sample en_reader_sample
                        mixed_reader_sample sample_image
                        [field_outside; field_inside] w0))
     = rev (E_calls th_reader_sample en_reader_sample mixed_reader_sample
              sample_image [field_outside; field_inside]) ++ ocr_calls w0.
Proof.
  split.
  - eapply (proj1 (read_text_from_fields_calls sample_image
                     [field_outside; field_inside] w0 _ _) sample_heic_env).
    reflexivity.
  - eapply (proj2 (read_text_from_fields_calls sample_image
                     [field_outside; field_inside] w0 _ _)
              th_reader_sample en_reader_sample mixed_reader_sample).
    reflexivity.
Defined.

(** ** [map_entities]: pass-through, key set, name parts *)

Section MapEntitiesLoop.

Local Abbreviation pass :=
  (fun (acc : dict pystr) (kv : string * pystr) =>
     if in_list (fst kv) ["id_card"; "en_name"]%string then acc
     else dict_set (fst kv) (strip (snd kv)) acc).

Lemma pass_through_hit (raw : dict pystr) : forall (acc : dict pystr) k v,
  NoDup (dict_keys raw) -> dict_get k raw = Some v ->
  in_list k ["id_card"; "en_name"]%string = false ->
  dict_get k (fold_left pass raw acc) = Some (strip v).
Proof.
  induction raw as [|[k0 v0] raw IH]; intros acc k v Hnd Hget Hskip; [discriminate|].
  cbn [fold_left fst snd]. cbn [dict_get] in Hget.
  inversion Hnd as [|? ? Hnot Hnd']; subst.
  destruct (String.eqb k k0) eqn:E.
  - apply String.eqb_eq in E. subst k0. injection Hget as ->.
    rewrite pass_through_get by (now right).
    rewrite Hskip, dict_get_set, String.eqb_refl. reflexivity.
  - now apply IH.
Qed.

Lemma pass_keys (raw : dict pystr) : forall (acc : dict pystr) k,
  In k (dict_keys (fold_left pass raw acc)) ->
  In k (dict_keys acc)
  \/ (In k (dict_keys raw) /\ in_list k ["id_card"; "en_name"]%string = false).
Proof.
  induction raw as [|[k0 v0] raw IH]; intros acc k Hin; [now left|].
  cbn [fold_left fst snd] in Hin. apply IH in Hin.
  destruct Hin as [Hin | [Hin Hs]]; [|right; split; [now right | exact Hs]].
  destruct (in_list k0 ["id_card"; "en_name"]%string) eqn:Hskip; [now left|].
  rewrite dict_set_keys in Hin.
  destruct (dict_get k0 acc); [now left|].
  apply in_app_or in Hin. destruct Hin as [Hin | [<- | []]]; [now left|].
  right. split; [now left | exact Hskip].
Qed.

Lemma pass_NoDup (raw : dict pystr) : forall acc : dict pystr,
  NoDup (dict_keys acc) -> NoDup (dict_keys (fold_left pass raw acc)).
Proof.
  induction raw as [|[k0 v0] raw IH]; intros acc Hnd; [exact Hnd|].
  cbn [fold_left fst snd]. apply IH.
  destruct (in_list k0 ["id_card"; "en_name"]%string); [exact Hnd|].
  now apply dict_set_NoDup.
Qed.

Lemma pass_plain (raw : dict pystr) : forall acc : dict pystr,
  NoDup (dict_keys acc ++ dict_keys raw) ->
  (forall k, In k (dict_keys raw) -> in_list k ["id_card"; "en_name"]%string = false) ->
  fold_left pass raw acc = acc ++ map (fun kv => (fst kv, strip (snd kv))) raw.
Proof.
  induction raw as [|[k0 v0] raw IH]; intros acc Hnd Hplain.
  - simpl. now rewrite app_nil_r.
  - cbn [fold_left fst snd map].
    rewrite (Hplain k0) by (now left).
    assert (Hnew : dict_get k0 acc = None).
    { apply dict_get_None. intros Hin. simpl in Hnd.
      apply NoDup_remove_2 in Hnd. apply Hnd. apply in_or_app. now left. }
    rewrite (dict_set_new _ _ _ Hnew), IH.
    + now rewrite <- app_assoc.
    + unfold dict_keys in *. rewrite map_app. simpl. rewrite <- app_assoc. exact Hnd.
    + intros k Hk. apply Hplain. now right.
Qed.

End MapEntitiesLoop.

Lemma skip_false (k : string) :
  k <> "id_card"%string -> k <> "en_name"%string ->
  in_list k ["id_card"; "en_name"]%string = false.
Proof.
  intros H1 H2. apply in_list_not_In. simpl. intuition congruence.
Qed.

(** X6. Every raw field other than ["id_card"] and ["en_name"] reaches the
    output of [map_entities] under its own label with its text trimmed,
    whatever else the raw map holds. *)
Theorem map_entities_pass_through :
  forall (env : H.Env) (raw : dict pystr) (k : string) (v : pystr),
    NoDup (dict_keys raw) ->
    dict_get k raw = Some v ->
    k <> "id_card"%string -> k <> "en_name"%string ->
    dict_get k (H.map_entities env raw) = Some (strip v).
Proof.
  intros env raw k v Hnd Hget H1 H2. unfold H.map_entities.
  apply pass_through_hit; [exact Hnd | exact Hget | now apply skip_false].
Qed.

Lemma map_entities_pass_through_witness :
  dict_get "en_prefix" (H.map_entities sample_heic_env clashing_raw) = Some (strip (lit "DR"))
  /\ dict_get "religion" (H.map_entities sample_heic_env plain_raw)
     = Some (strip (lit " Buddhism ")).
Proof.
  split.
  - apply map_entities_pass_through.
    + simpl. repeat constructor; simpl; intuition discriminate.
    + reflexivity.
    + discriminate.
    + discriminate.
  - apply map_entities_pass_through.
    + simpl. repeat constructor; simpl; intuition discriminate.
    + reflexivity.
    + discriminate.
    + discriminate.
Defined.

Lemma dict_get_In_keys {V} (d : dict V) (k : string) :
  In k (dict_keys d) <-> exists v, dict_get k d = Some v.
Proof.
  split.
  - intros Hin. destruct (dict_get k d) as [v|] eqn:E; [now exists v|].
    apply dict_get_None in E. contradiction.
  - intros (v & Hv). apply dict_get_Some_In in Hv.
    change (In (fst (k, v)) (map fst d)). now apply in_map.
Qed.

(** The entries [map_entities] has built before its final loop. *)
Lemma map_entities_before_loop_keys (env : H.Env) (raw : dict pystr) :
  exists ents : dict pystr,
    H.map_entities env raw
    = fold_left
        (fun (acc : dict pystr) (kv : string * pystr) =>
           if in_list (fst kv) ["id_card"; "en_name"]%string then acc
           else dict_set (fst kv) (strip (snd kv)) acc)
        raw ents
    /\ NoDup (dict_keys ents)
    /\ forall k, In k (dict_keys ents) ->
         (k = "id_card"%string /\ In k (dict_keys raw))
         \/ In k ["en_prefix"; "en_firstname"; "en_lastname"; "en_name_raw"]%string.
Proof.
  unfold H.map_entities.
  destruct (dict_get "id_card" raw) as [x|] eqn:Hid;
    [assert (Hin : In "id_card"%string (dict_keys raw))
       by (apply dict_get_In_keys; now exists x)|];
    (destruct (dict_get "en_name" raw) as [v|];
     [destruct (3 <=? List.length (split v))%nat|]);
    eexists; (split; [reflexivity|]);
    unfold H.dict_update; cbn;
    (split; [repeat constructor; cbn; intuition discriminate|]);
    intros k Hk; intuition (subst; auto).
Qed.

(** X7. The output of [map_entities] never has a key ["en_name"]; it has a
    key ["id_card"] exactly when the raw map has one; no key occurs twice;
    and every key is a raw label or one of the four keys derived from the
    name. *)
Theorem map_entities_keys :
  forall (env : H.Env) (raw : dict pystr),
    NoDup (dict_keys (H.map_entities env raw))
    /\ ~ In "en_name"%string (dict_keys (H.map_entities env raw))
    /\ (In "id_card"%string (dict_keys (H.map_entities env raw))
        <-> In "id_card"%string (dict_keys raw))
    /\ forall k, In k (dict_keys (H.map_entities env raw)) ->
         In k (dict_keys raw)
         \/ In k ["en_prefix"; "en_firstname"; "en_lastname"; "en_name_raw"]%string.
Proof.
  intros env raw.
  destruct (map_entities_before_loop_keys env raw) as (ents & Heq & Hnd & Hkeys).
  split; [|split; [|split]].
  - rewrite Heq. now apply pass_NoDup.
  - rewrite Heq. intros Hin. apply pass_keys in Hin.
    destruct Hin as [Hin | [_ Hs]]; [|discriminate].
    apply Hkeys in Hin. simpl in Hin. intuition discriminate.
  - split.
    + rewrite Heq. intros Hin. apply pass_keys in Hin.
      destruct Hin as [Hin | [_ Hs]]; [|discriminate].
      apply Hkeys in Hin. simpl in Hin. intuition discriminate.
    + intros Hin. apply dict_get_In_keys in Hin. destruct Hin as (v & Hv).
      apply dict_get_In_keys. eexists. apply map_entities_id_card. exact Hv.
  - intros k Hin. rewrite Heq in Hin. apply pass_keys in Hin.
    destruct Hin as [Hin | [Hin _]]; [|now left].
    apply Hkeys in Hin. destruct Hin as [[_ Hin] | Hin]; [now left | now right].
Qed.

(** X8. On a raw map without ["id_card"] and ["en_name"], [map_entities]
    returns the same labels in the same order, each text trimmed. *)
Theorem map_entities_plain_map :
  forall (env : H.Env) (raw : dict pystr),
    NoDup (dict_keys raw) ->
    ~ In "id_card"%string (dict_keys raw) ->
    ~ In "en_name"%string (dict_keys raw) ->
    H.map_entities env raw = map (fun kv => (fst kv, strip (snd kv))) raw.
Proof.
  intros env raw Hnd Hid Hen. unfold H.map_entities.
  rewrite (proj2 (dict_get_None _ _) Hid), (proj2 (dict_get_None _ _) Hen).
  rewrite pass_plain; [reflexivity | exact Hnd |].
  intros k Hk. apply skip_false; intros ->; contradiction.
Qed.

Lemma map_entities_plain_map_witness :
  H.map_entities sample_heic_env plain_raw
  = [("religion"%string, lit "Buddhism"); ("first_name_en"%string, lit "John")].
Proof.
  rewrite map_entities_plain_map.
  - reflexivity.
  - simpl. repeat constructor; simpl; intuition discriminate.
  - simpl. intuition discriminate.
  - simpl. intuition discriminate.
Defined.

Lemma map_entities_keys_witness :
  ~ In "en_name"%string (dict_keys (H.map_entities sample_heic_env clashing_raw))
  /\ (In "en_prefix"%string (dict_keys clashing_raw)
      \/ In "en_prefix"%string
           ["en_prefix"; "en_firstname"; "en_lastname"; "en_name_raw"]%string).
Proof.
  destruct (map_entities_keys sample_heic_env clashing_raw) as (_ & Hno & _ & Hsub).
  split; [exact Hno|].
  apply Hsub. simpl. tauto.
Defined.

Lemma strip_clean (v : pystr) : clean_text v -> strip v = v.
Proof.
  intros (Hne & Hhead & Hlast & _).
  destruct v as [|c t]; [congruence|].
  unfold strip. cbn [lstrip]. rewrite (Hhead c t eq_refl).
  destruct (exists_last (l := c :: t)) as (t1 & c1 & Ht1); [discriminate|].
  unfold rstrip. rewrite Ht1, rev_app_distr. cbn [rev app lstrip].
  rewrite (Hlast c1 t1 Ht1).
  change (c1 :: rev t1) with (rev [c1] ++ rev t1).
  now rewrite <- rev_app_distr, rev_involutive.
Qed.

(** X9. In the pytesseract pipeline the entity mapper does not alter what the
    field reader stored: every entry of the raw map returned by
    [read_text_from_fields], other than ["id_card"] and ["en_name"], is in
    the output of [map_entities] with exactly the same text. *)
Theorem read_then_map_keeps_text :
  forall (env : H.Env) (img : image) (fs : list Detection) (w w' : world)
         (raw : dict pystr) (k : string) (v : pystr),
    H.read_text_from_fields env img fs w = (Return raw, w') ->
    In (k, v) raw ->
    k <> "id_card"%string -> k <> "en_name"%string ->
    dict_get k (H.map_entities env raw) = Some v.
Proof.
  intros env img fs w w' raw k v Hrun Hin H1 H2.
  unfold H.read_text_from_fields in Hrun.
  assert (Hinv : raw_map_inv img fs raw).
  { eapply H_read_fields_inv; [| |exact Hrun].
    - intros f Hf. exact Hf.
    - split; [constructor | intros k0 v0 []]. }
  destruct Hinv as (Hnd & Hent).
  destruct (Hent k v Hin) as (Hclean & _).
  unfold H.map_entities.
  rewrite pass_through_hit with (v := v);
    [now rewrite strip_clean | exact Hnd | now apply dict_In_get | now apply skip_false].
Qed.

Lemma read_then_map_keeps_text_witness :
  dict_get "religion" (H.map_entities sample_heic_env [("religion"%string, lit "12-3")])
  = Some (lit "12-3").
Proof.
  apply (@read_then_map_keeps_text sample_heic_env sample_image
           [field_inside; field_outside] w0
           {| files := [];
              ocr_calls := [(["tha+eng"%string], [[(10, 20, 30); (11, 21, 31)]])] |}).
  - reflexivity.
  - now left.
  - discriminate.
  - discriminate.
Defined.

(** Splitting what [" ".join] built from tokens gives the tokens back. *)
Lemma split_go_token (t : pystr) : forall (cur rest : pystr),
  Forall (fun c => isspace c = false) t ->
  split_go cur (t ++ rest) = split_go (rev t ++ cur) rest.
Proof.
  induction t as [|c t IH]; intros cur rest Ht; [reflexivity|].
  inversion Ht as [|? ? Hc Ht']; subst.
  cbn [app split_go]. rewrite Hc, IH by exact Ht'.
  cbn [rev]. now rewrite <- app_assoc.
Qed.

Lemma split_join (ts : list pystr) :
  Forall token ts -> split (join (lit " ") ts) = ts.
Proof.
  unfold split. induction ts as [|t ts IH]; intros Hts; [reflexivity|].
  inversion Hts as [|? ? [Hne Ht] Hts']; subst.
  assert (Hrev : rev t <> []).
  { intros Hr. apply Hne. apply (f_equal (@rev N)) in Hr.
    now rewrite rev_involutive in Hr. }
  destruct ts as [|t' ts].
  - cbn [join]. rewrite <- (app_nil_r t) at 1.
    rewrite split_go_token by exact Ht. rewrite app_nil_r. cbn [split_go].
    destruct (rev t) eqn:Hr; [congruence|]. rewrite <- Hr.
    now rewrite rev_involutive.
  - change (join (lit " ") (t :: t' :: ts))
      with (t ++ 32%N :: join (lit " ") (t' :: ts)).
    rewrite split_go_token by exact Ht. rewrite app_nil_r.
    cbn [split_go]. change (isspace 32) with true. cbv iota.
    destruct (rev t) eqn:Hr; [congruence|]. rewrite <- Hr.
    rewrite rev_involutive. f_equal. now apply IH.
Qed.

(** X10. When [map_entities] splits an English name of at least three
    tokens (and the raw map has no label named like a derived key), prefix
    and first name are single tokens, splitting the last name on whitespace
    gives back the remaining tokens, and the three parts joined by single
    spaces are the whitespace-normalised name: nothing but whitespace is
    lost. *)
Theorem map_entities_name_round_trip :
  forall (env : H.Env) (raw : dict pystr) (v : pystr),
    dict_get "en_name" raw = Some v ->
    (forall k, In k ["en_prefix"; "en_firstname"; "en_lastname"]%string ->
               ~ In k (dict_keys raw)) ->
    (3 <= List.length (split v))%nat ->
    exists p f l,
      dict_get "en_prefix" (H.map_entities env raw) = Some p
      /\ dict_get "en_firstname" (H.map_entities env raw) = Some f
      /\ dict_get "en_lastname" (H.map_entities env raw) = Some l
      /\ token p /\ token f
      /\ split l = skipn 2 (split v)
      /\ join (lit " ") [p; f; l] = join (lit " ") (split v).
Proof.
  intros env raw v Hv Hfree Hlen.
  pose proof (split_tokens v) as Htok.
  rewrite !(map_entities_derived_key env raw) by (apply Hfree; simpl; tauto).
  rewrite Hv. rewrite (proj2 (Nat.leb_le _ _) Hlen).
  destruct (split v) as [|p [|f [|r rest]]]; simpl in Hlen; try lia.
  inversion Htok as [|? ? Hp Htok1]; subst.
  inversion Htok1 as [|? ? Hf Htok2]; subst.
  exists p, f, (join (lit " ") (r :: rest)).
  repeat split; try reflexivity; try (apply Hp); try (apply Hf).
  cbn [skipn]. now apply split_join.
Qed.

Lemma map_entities_name_round_trip_witness :
  exists p f l,
    dict_get "en_prefix"
      (H.map_entities sample_heic_env [("en_name"%string, lit " MR  JOHN VAN   DAMME ")])
    = Some p
    /\ dict_get "en_firstname"
         (H.map_entities sample_heic_env [("en_name"%string, lit " MR  JOHN VAN   DAMME ")])
       = Some f
    /\ dict_get "en_lastname"
         (H.map_entities sample_heic_env [("en_name"%string, lit " MR  JOHN VAN   DAMME ")])
       = Some l
    /\ token p /\ token f
    /\ split l = skipn 2 (split (lit " MR  JOHN VAN   DAMME "))
    /\ join (lit " ") [p; f; l] = join (lit " ") (split (lit " MR  JOHN VAN   DAMME ")).
Proof.
  apply map_entities_name_round_trip.
  - reflexivity.
  - intros k Hk Hin. simpl in Hk, Hin.
    destruct Hin as [<- | []].
    repeat (destruct Hk as [Hk | Hk]; [discriminate Hk|]). exact Hk.
  - vm_compute. lia.
Defined.

(** ** [run_ocr_pipeline]: what a run leaves behind *)

Lemma bind_Return_eq {A B} (m : M A) (k : A -> M B) w d w' :
  bind m k w = (Return d, w') ->
  exists a w1, m w = (Return a, w1) /\ k a w1 = (Return d, w').
Proof.
  unfold bind. destruct (m w) as [[a|e] w1]; [|discriminate].
  intros Hk. now exists a, w1.
Qed.

Lemma guard_error_Return err w u w' :
  guard_error err w = (Return u, w') -> err = None /\ w' = w.
Proof.
  destruct err; [discriminate|]. now intros [= _ <-].
Qed.

Lemma H_crop_card_world env model p w o w' :
  H.crop_card env model p w = (o, w') -> w' = w.
Proof.
  unfold H.crop_card, bind, lift.
  destruct (cv2_imread (H.host env) p) as [img|]; [|now intros [= _ <-]].
  destruct (predict model _ _ _) as [r|e]; [|now intros [= _ <-]].
  destruct (List.length (boxes r) =? 0)%nat; [now intros [= _ <-]|].
  destruct (nth _ _ _) as [[[x1 y1] x2] y2].
  destruct (size _ >? 0); now intros [= _ <-].
Qed.

Lemma E_crop_card_world env model p w o w' :
  E.crop_card env model p w = (o, w') -> w' = w.
Proof.
  unfold E.crop_card, bind, lift.
  destruct (cv2_imread (E.host env) p) as [img|]; [|now intros [= _ <-]].
  destruct (predict model _ _ _) as [r|e]; [|now intros [= _ <-]].
  destruct (List.length (boxes r) =? 0)%nat; [now intros [= _ <-]|].
  destruct (nth _ _ _) as [[[x1 y1] x2] y2].
  destruct (size _ >? 0); now intros [= _ <-].
Qed.

Lemma H_detect_world model c w o w' :
  H.detect_text_fields model c w = (o, w') -> w' = w.
Proof.
  unfold H.detect_text_fields, bind, lift.
  destruct c as [img|]; [|now intros [= _ <-]].
  destruct (predict model _ _ _); now intros [= _ <-].
Qed.

Lemma E_detect_world model c w o w' :
  E.detect_text_fields model c w = (o, w') -> w' = w.
Proof.
  unfold E.detect_text_fields, bind, lift.
  destruct c as [img|]; [|now intros [= _ <-]].
  destruct (predict model _ _ _); now intros [= _ <-].
Qed.

Lemma H_save_world env r p w u w' :
  H.save_plotted_image env r p w = (Return u, w') ->
  ocr_calls w' = ocr_calls w
  /\ (files w' = files w \/ files w' = (p, Plot r) :: files w).
Proof.
  unfold H.save_plotted_image, bind, guard_error.
  destruct (plot_error (H.host env) r); [discriminate|]. cbn [ret].
  destruct (cv2_imwrite (H.host env) p); [| |discriminate];
    intros [= _ <-]; simpl; auto.
Qed.

Lemma E_save_world env r p w u w' :
  E.save_plotted_image env r p w = (Return u, w') ->
  ocr_calls w' = ocr_calls w
  /\ (files w' = files w \/ files w' = (p, Plot r) :: files w).
Proof.
  unfold E.save_plotted_image, bind, guard_error.
  destruct (plot_error (E.host env) r); [discriminate|]. cbn [ret].
  destruct (cv2_imwrite (E.host env) p); [| |discriminate];
    intros [= _ <-]; simpl; auto.
Qed.

(** X12. Whenever [crop_card] comes back without a card (undecodable file,
    no box, or a best box that clips to nothing) and drawing the stage-1 plot
    does not raise, [run_ocr_pipeline] raises the 400 "Could not detect an ID
    card in the image." exception; no OCR call has been made and at most the
    stage-1 plot has been written. *)
Theorem no_card_is_bad_request :
  forall (image_path output_dir : string) (w w1 : world) (r : option Results),
    (forall (env : H.Env) (cd td : YOLO),
        H.CARD_DETECTOR env = Some cd -> H.TEXT_DETECTOR env = Some td ->
        H.crop_card env cd image_path w = (Return (None, r), w1) ->
        (forall res, r = Some res ->
           plot_error (H.host env) res = None
           /\ forall msg, cv2_imwrite (H.host env) (card_plot_path image_path output_dir)
                          <> ImwriteError msg) ->
        exists w',
          H.run_ocr_pipeline env image_path output_dir w
          = (Raise (HTTPException 400 "Could not detect an ID card in the image."), w')
          /\ ocr_calls w' = ocr_calls w
          /\ (files w' = files w
              \/ exists res, r = Some res
                 /\ files w' = (card_plot_path image_path output_dir, Plot res)
                               :: files w))
    /\
    (forall (env : E.Env) (cd td : YOLO) (th en mx : E.Reader),
        E.CARD_DETECTOR env = Some cd -> E.TEXT_DETECTOR env = Some td ->
        E.TH_READER env = Some th -> E.EN_READER env = Some en ->
        E.MIXED_READER env = Some mx ->
        E.crop_card env cd image_path w = (Return (None, r), w1) ->
        (forall res, r = Some res ->
           plot_error (E.host env) res = None
           /\ forall msg, cv2_imwrite (E.host env) (card_plot_path image_path output_dir)
                          <> ImwriteError msg) ->
        exists w',
          E.run_ocr_pipeline env image_path output_dir w
          = (Raise (HTTPException 400 "Could not detect an ID card in the image."), w')
          /\ ocr_calls w' = ocr_calls w
          /\ (files w' = files w
              \/ exists res, r = Some res
                 /\ files w' = (card_plot_path image_path output_dir, Plot res)
                               :: files w)).
Proof.
  intros image_path output_dir w w1 r. split.
  - intros env cd td Hcd Htd Hcrop Hplot.
    pose proof (H_crop_card_world _ _ _ _ Hcrop) as ->.
    unfold H.run_ocr_pipeline. rewrite Hcd, Htd. unfold bind at 1. rewrite Hcrop.
    fold (card_plot_path image_path output_dir).
    destruct r as [res|].
    + destruct (Hplot res eq_refl) as [Hpe Hwr].
      unfold bind, H.save_plotted_image, guard_error. rewrite Hpe. cbn [ret bind].
      destruct (cv2_imwrite (H.host env) (card_plot_path image_path output_dir))
        as [| |msg] eqn:Hst.
      * eexists. split; [reflexivity|]. split; [reflexivity|].
        right. exists res. now split.
      * eexists. split; [reflexivity|]. split; [reflexivity|]. now left.
      * now elim (Hwr msg).
    + eexists. split; [reflexivity|]. split; [reflexivity|]. now left.
  - intros env cd td th en mx Hcd Htd Hth Hen Hmx Hcrop Hplot.
    pose proof (E_crop_card_world _ _ _ _ Hcrop) as ->.
    unfold E.run_ocr_pipeline. rewrite Hcd, Htd, Hth, Hen, Hmx.
    unfold bind at 1. rewrite Hcrop.
    fold (card_plot_path image_path output_dir).
    destruct r as [res|].
    + destruct (Hplot res eq_refl) as [Hpe Hwr].
      unfold bind, E.save_plotted_image, guard_error. rewrite Hpe. cbn [ret bind].
      destruct (cv2_imwrite (E.host env) (card_plot_path image_path output_dir))
        as [| |msg] eqn:Hst.
      * eexists. split; [reflexivity|]. split; [reflexivity|].
        right. exists res. now split.
      * eexists. split; [reflexivity|]. split; [reflexivity|]. now left.
      * now elim (Hwr msg).
    + eexists. split; [reflexivity|]. split; [reflexivity|]. now left.
Qed.

Lemma no_card_is_bad_request_witness :
  (exists w',
      H.run_ocr_pipeline no_card_heic_env staged_png output_logs w0
      = (Raise (HTTPException 400 "Could not detect an ID card in the image."), w')
      /\ ocr_calls w' = ocr_calls w0
      /\ (files w' = files w0
          \/ exists res, Some no_card_results = Some res
             /\ files w' = (card_plot_path staged_png output_logs, Plot res) :: files w0))
  /\
  (exists w',
      E.run_ocr_pipeline no_card_easyocr_env staged_png output_logs w0
      = (Raise (HTTPException 400 "Could not detect an ID card in the image."), w')
      /\ ocr_calls w' = ocr_calls w0
      /\ (files w' = files w0
          \/ exists res, Some no_card_results = Some res
             /\ files w' = (card_plot_path staged_png output_logs, Plot res) :: files w0)).
Proof.
  destruct (no_card_is_bad_request staged_png output_logs w0 w0 (Some no_card_results))
    as [Hh He].
  split.
  - apply (Hh no_card_heic_env blind_card_detector sample_text_detector);
      try reflexivity.
    intros res _. split; [reflexivity | intros msg; discriminate].
  - apply (He no_card_easyocr_env blind_card_detector sample_text_detector
              th_reader_sample en_reader_sample mixed_reader_sample);
      try reflexivity.
    intros res _. split; [reflexivity | intros msg; discriminate].
Defined.

(** ** Where the keys of the EntityMap come from *)

Lemma H_detect_inv model card w tf tr w' :
  H.detect_text_fields model (Some card) w = (Return (tf, tr), w') ->
  exists results,
    predict model card (1#4) None = Return results
    /\ tf = selected (names model) (boxes results) /\ tr = Some results.
Proof.
  unfold H.detect_text_fields, bind, lift.
  destruct (predict model card (1#4) None) as [results|e]; [|discriminate].
  intros [= <- <- _]. now exists results.
Qed.

Lemma E_detect_inv model card w tf tr w' :
  E.detect_text_fields model (Some card) w = (Return (tf, tr), w') ->
  exists results,
    predict model card (1#100) (Some (1#4)) = Return results
    /\ tf = selected (names model) (boxes results) /\ tr = Some results.
Proof.
  unfold E.detect_text_fields, bind, lift.
  destruct (predict model card (1#100) (Some (1#4))) as [results|e]; [|discriminate].
  intros [= <- <- _]. now exists results.
Qed.

Lemma selected_label_raw names bs f :
  In f (selected names bs) ->
  exists b, In b bs /\ names (astype_int (cls b)) = label f.
Proof.
  intros Hf. destruct (selected_spec names bs) as (_ & Hlab & _).
  destruct (proj1 (Hlab (label f)) (in_map label _ _ Hf)) as (b & Hb & Hl).
  now exists b.
Qed.

Lemma H_save_exact env r p w u w' :
  H.save_plotted_image env r p w = (Return u, w') ->
  w' = after_plot (H.host env) p r w.
Proof.
  unfold H.save_plotted_image, bind, guard_error, after_plot.
  destruct (plot_error (H.host env) r); [discriminate|]. cbn [ret].
  destruct (cv2_imwrite (H.host env) p); [| |discriminate];
    now intros [= _ <-].
Qed.

Lemma E_save_exact env r p w u w' :
  E.save_plotted_image env r p w = (Return u, w') ->
  w' = after_plot (E.host env) p r w.
Proof.
  unfold E.save_plotted_image, bind, guard_error, after_plot.
  destruct (plot_error (E.host env) r); [discriminate|]. cbn [ret].
  destruct (cv2_imwrite (E.host env) p); [| |discriminate];
    now intros [= _ <-].
Qed.

(** The stages of a run of the pytesseract pipeline that returns. *)
Lemma H_run_inv env image_path output_dir w d w' :
  H.run_ocr_pipeline env image_path output_dir w = (Return d, w') ->
  exists cd td card r1 r2 raw w5,
    H.CARD_DETECTOR env = Some cd /\ H.TEXT_DETECTOR env = Some td
    /\ H.crop_card env cd image_path w = (Return (Some card, Some r1), w)
    /\ predict td card (1#4) None = Return r2
    /\ H.read_text_from_fields env card (selected (names td) (boxes r2))
         (after_plot (H.host env) (text_plot_path image_path output_dir) r2
            (after_plot (H.host env) (card_plot_path image_path output_dir) r1 w))
       = (Return raw, w5)
    /\ d = H.map_entities env raw
    /\ w' = write_file (json_path image_path output_dir) (Json d) w5.
Proof.
  unfold H.run_ocr_pipeline. intros Hrun.
  destruct (H.CARD_DETECTOR env) as [cd|]; [|discriminate].
  destruct (H.TEXT_DETECTOR env) as [td|]; [|discriminate].
  apply bind_Return_eq in Hrun. destruct Hrun as ([c r] & w1 & Hc & Hrun).
  pose proof (H_crop_card_world _ _ _ _ Hc) as ->.
  apply bind_Return_eq in Hrun. destruct Hrun as (u1 & w2 & Hs1 & Hrun).
  destruct c as [card|]; [|discriminate].
  destruct (H_crop_card_results _ _ _ _ Hc) as (r1 & ->).
  apply H_save_exact in Hs1. subst w2.
  apply bind_Return_eq in Hrun. destruct Hrun as ([tf tr] & w3 & Hd & Hrun).
  pose proof (H_detect_world _ _ _ Hd) as ->.
  destruct (H_detect_inv _ _ _ Hd) as (r2 & Hp & -> & ->).
  apply bind_Return_eq in Hrun. destruct Hrun as (u2 & w4 & Hs2 & Hrun).
  apply H_save_exact in Hs2. subst w4.
  apply bind_Return_eq in Hrun. destruct Hrun as (raw & w5 & Hr & Hrun).
  apply bind_Return_eq in Hrun. destruct Hrun as (u3 & w6 & Hg & Hrun).
  apply guard_error_Return in Hg. destruct Hg as [_ ->].
  injection Hrun as <- <-.
  exists cd, td, card, r1, r2, raw, w5. repeat split; assumption.
Qed.

(** The stages of a run of the EasyOCR pipeline that returns. *)
Lemma E_run_inv env image_path output_dir w d w' :
  E.run_ocr_pipeline env image_path output_dir w = (Return d, w') ->
  exists cd td th en mx card r1 r2 w5,
    E.CARD_DETECTOR env = Some cd /\ E.TEXT_DETECTOR env = Some td
    /\ E.TH_READER env = Some th /\ E.EN_READER env = Some en
    /\ E.MIXED_READER env = Some mx
    /\ E.crop_card env cd image_path w = (Return (Some card, Some r1), w)
    /\ predict td card (1#100) (Some (1#4)) = Return r2
    /\ E.read_text_from_fields th en mx card (selected (names td) (boxes r2))
         (after_plot (E.host env) (text_plot_path image_path output_dir) r2
            (after_plot (E.host env) (card_plot_path image_path output_dir) r1 w))
       = (Return d, w5)
    /\ w' = write_file (json_path image_path output_dir) (Json d) w5.
Proof.
  unfold E.run_ocr_pipeline. intros Hrun.
  destruct (E.CARD_DETECTOR env) as [cd|]; [|discriminate].
  destruct (E.TEXT_DETECTOR env) as [td|]; [|discriminate].
  destruct (E.TH_READER env) as [th|]; [|discriminate].
  destruct (E.EN_READER env) as [en|]; [|discriminate].
  destruct (E.MIXED_READER env) as [mx|]; [|discriminate].
  apply bind_Return_eq in Hrun. destruct Hrun as ([c r] & w1 & Hc & Hrun).
  pose proof (E_crop_card_world _ _ _ _ Hc) as ->.
  apply bind_Return_eq in Hrun. destruct Hrun as (u1 & w2 & Hs1 & Hrun).
  destruct c as [card|]; [|discriminate].
  destruct (E_crop_card_results _ _ _ _ Hc) as (r1 & ->).
  apply E_save_exact in Hs1. subst w2.
  apply bind_Return_eq in Hrun. destruct Hrun as ([tf tr] & w3 & Hd & Hrun).
  pose proof (E_detect_world _ _ _ Hd) as ->.
  destruct (E_detect_inv _ _ _ Hd) as (r2 & Hp & -> & ->).
  apply bind_Return_eq in Hrun. destruct Hrun as (u2 & w4 & Hs2 & Hrun).
  apply E_save_exact in Hs2. subst w4.
  apply bind_Return_eq in Hrun. destruct Hrun as (raw & w5 & Hr & Hrun).
  apply bind_Return_eq in Hrun. destruct Hrun as (u3 & w6 & Hg & Hrun).
  apply guard_error_Return in Hg. destruct Hg as [_ ->].
  injection Hrun as <- <-. unfold E.map_entities.
  exists cd, td, th, en, mx, card, r1, r2, w5. repeat split; assumption.
Qed.

Lemma plot_entry_files h p r w :
  files (after_plot h p r w) = plot_entry h p r ++ files w.
Proof.
  unfold after_plot, plot_entry. destruct (imwrite_ok (cv2_imwrite h p)); reflexivity.
Qed.

Lemma plot_entry_get h p r q (l : list (string * artifact)) :
  q <> p -> dict_get q (plot_entry h p r ++ l) = dict_get q l.
Proof.
  intros Hq. unfold plot_entry.
  destruct (imwrite_ok (cv2_imwrite h p)); [|reflexivity].
  cbn [app dict_get]. apply String.eqb_neq in Hq. now rewrite Hq.
Qed.

Lemma run_log_intro h image_path output_dir d r1 r2 w w5 :
  files w5
  = files (after_plot h (text_plot_path image_path output_dir) r2
             (after_plot h (card_plot_path image_path output_dir) r1 w)) ->
  run_log h image_path output_dir d r1 r2 w
          (write_file (json_path image_path output_dir) (Json d) w5).
Proof.
  intros Hf. rewrite !plot_entry_files in Hf.
  unfold run_log. cbn [files write_file]. rewrite Hf.
  split; [reflexivity|]. split.
  - cbn [dict_get]. now rewrite String.eqb_refl.
  - intros p Hj Ht Hc. cbn [dict_get].
    apply String.eqb_neq in Hj. rewrite Hj.
    now rewrite !plot_entry_get.
Qed.

(** X11. A run of [run_ocr_pipeline] that returns an EntityMap has added to
    the write log, in this order and nothing else: the stage-1 plot of the
    results [crop_card] returned in this run, the stage-2 plot of the results
    [detect_text_fields] returned for the cropped card, each exactly when
    [cv2.imwrite] returned [True] for its path, and the JSON snapshot of the
    map it returns.  So the snapshot path holds exactly the returned map, and
    every path other than the three artifact paths holds what it held
    before. *)
Theorem run_ocr_pipeline_artifacts :
  forall (image_path output_dir : string) (w w' : world) (d : dict pystr),
    (forall env : H.Env,
        H.run_ocr_pipeline env image_path output_dir w = (Return d, w') ->
        exists cd td card r1 tf r2,
          H.CARD_DETECTOR env = Some cd /\ H.TEXT_DETECTOR env = Some td
          /\ H.crop_card env cd image_path w = (Return (Some card, Some r1), w)
          /\ H.detect_text_fields td (Some card) w = (Return (tf, Some r2), w)
          /\ run_log (H.host env) image_path output_dir d r1 r2 w w')
    /\
    (forall env : E.Env,
        E.run_ocr_pipeline env image_path output_dir w = (Return d, w') ->
        exists cd td card r1 tf r2,
          E.CARD_DETECTOR env = Some cd /\ E.TEXT_DETECTOR env = Some td
          /\ E.crop_card env cd image_path w = (Return (Some card, Some r1), w)
          /\ E.detect_text_fields td (Some card) w = (Return (tf, Some r2), w)
          /\ run_log (E.host env) image_path output_dir d r1 r2 w w').
Proof.
  intros image_path output_dir w w' d. split; intros env Hrun.
  - destruct (H_run_inv _ _ _ _ Hrun)
      as (cd & td & card & r1 & r2 & raw & w5 & Hcd & Htd & Hc & Hp & Hr & -> & ->).
    exists cd, td, card, r1, (selected (names td) (boxes r2)), r2.
    repeat (split; [assumption|]).
    split; [now apply H_detect_text_fields_eq|].
    apply run_log_intro.
    unfold H.read_text_from_fields in Hr.
    now destruct (H_read_fields_calls _ _ _ _ _ Hr).
  - destruct (E_run_inv _ _ _ _ Hrun)
      as (cd & td & th & en & mx & card & r1 & r2 & w5
          & Hcd & Htd & _ & _ & _ & Hc & Hp & Hr & ->).
    exists cd, td, card, r1, (selected (names td) (boxes r2)), r2.
    repeat (split; [assumption|]).
    split; [now apply E_detect_text_fields_eq|].
    apply run_log_intro.
    unfold E.read_text_from_fields in Hr.
    now destruct (E_read_fields_calls _ _ _ _ _ _ _ Hr).
Qed.

Lemma run_ocr_pipeline_artifacts_witness :
  exists cd td card r1 tf r2,
    H.CARD_DETECTOR reading_heic_env = Some cd
    /\ H.TEXT_DETECTOR reading_heic_env = Some td
    /\ H.crop_card reading_heic_env cd staged_png w0 = (Return (Some card, Some r1), w0)
    /\ H.detect_text_fields td (Some card) w0 = (Return (tf, Some r2), w0)
    /\ run_log (H.host reading_heic_env) staged_png output_logs
         [("id_card"%string, lit "123")] r1 r2 w0
         (snd (H.run_ocr_pipeline reading_heic_env staged_png output_logs w0)).
Proof.
  apply (proj1 (run_ocr_pipeline_artifacts staged_png output_logs w0
                  (snd (H.run_ocr_pipeline reading_heic_env staged_png output_logs w0))
                  [("id_card"%string, lit "123")]) reading_heic_env).
  reflexivity.
Defined.

(** On the sample run: the log, and the log when both image writes fail. *)
Example run_ocr_pipeline_sample_log :
  map fst (files (snd (H.run_ocr_pipeline reading_heic_env staged_png output_logs w0)))
  = ["output_logs/temp_image_data.json"; "output_logs/temp_image_2_text_detections.jpg";
     "output_logs/temp_image_1_card_detection.jpg"]%string
  /\ map fst (files (snd (H.run_ocr_pipeline
                            (H_set_imwrite reading_heic_env (fun _ => ImwriteFalse))
                            staged_png output_logs w0)))
     = ["output_logs/temp_image_data.json"%string].
Proof. split; reflexivity. Qed.

(** X13. Every key of an EntityMap returned by [run_ocr_pipeline] is the
    label the text detector's [names] table gives to one of the boxes it
    reported on the card that [crop_card] returned in this run; in the
    pytesseract variant it may also be one of the four keys the entity mapper
    derives from the English name. *)
Theorem entity_keys_are_detected_labels :
  forall (image_path output_dir : string) (w w' : world) (d : dict pystr)
         (k : string),
    In k (dict_keys d) ->
    (forall env : H.Env,
        H.run_ocr_pipeline env image_path output_dir w = (Return d, w') ->
        In k ["en_prefix"; "en_firstname"; "en_lastname"; "en_name_raw"]%string
        \/ exists cd td card r1 results b,
             H.CARD_DETECTOR env = Some cd /\ H.TEXT_DETECTOR env = Some td
             /\ H.crop_card env cd image_path w = (Return (Some card, Some r1), w)
             /\ predict td card (1#4) None = Return results
             /\ In b (boxes results) /\ names td (astype_int (cls b)) = k)
    /\
    (forall env : E.Env,
        E.run_ocr_pipeline env image_path output_dir w = (Return d, w') ->
        exists cd td card r1 results b,
          E.CARD_DETECTOR env = Some cd /\ E.TEXT_DETECTOR env = Some td
          /\ E.crop_card env cd image_path w = (Return (Some card, Some r1), w)
          /\ predict td card (1#100) (Some (1#4)) = Return results
          /\ In b (boxes results) /\ names td (astype_int (cls b)) = k).
Proof.
  intros image_path output_dir w w' d k Hk. split; intros env Hrun.
  - destruct (H_run_inv _ _ _ _ Hrun)
      as (cd & td & card & r1 & r2 & raw & w5 & Hcd & Htd & Hc & Hp & Hr & -> & _).
    destruct (map_entities_before_loop_keys env raw) as (ents & Heq & _ & Hkeys).
    rewrite Heq in Hk. apply pass_keys in Hk.
    assert (Hraw : In k (dict_keys raw) ->
              exists cd td card r1 results b,
                H.CARD_DETECTOR env = Some cd /\ H.TEXT_DETECTOR env = Some td
                /\ H.crop_card env cd image_path w = (Return (Some card, Some r1), w)
                /\ predict td card (1#4) None = Return results
                /\ In b (boxes results) /\ names td (astype_int (cls b)) = k).
    { intros Hin. unfold H.read_text_from_fields in Hr.
      destruct (H_read_fields_effect _ _ _ _ _ Hr) as [_ Hsub].
      destruct (Hsub raw k eq_refl Hin) as [[] | (f & Hf & <- & _)].
      destruct (selected_label_raw _ _ _ Hf) as (b & Hb & Hl).
      exists cd, td, card, r1, r2, b. repeat split; assumption. }
    destruct Hk as [Hk | [Hk _]]; [|right; now apply Hraw].
    apply Hkeys in Hk.
    destruct Hk as [[_ Hk] | Hk]; [right; now apply Hraw | now left].
  - destruct (E_run_inv _ _ _ _ Hrun)
      as (cd & td & th & en & mx & card & r1 & r2 & w5
          & Hcd & Htd & _ & _ & _ & Hc & Hp & Hr & _).
    unfold E.read_text_from_fields in Hr.
    destruct (E_read_fields_effect _ _ _ _ _ _ _ Hr) as [_ Hsub].
    destruct (Hsub d k eq_refl Hk) as [[] | (f & Hf & <- & _)].
    destruct (selected_label_raw _ _ _ Hf) as (b & Hb & Hl).
    exists cd, td, card, r1, r2, b. repeat split; assumption.
Qed.

Lemma entity_keys_are_detected_labels_witness :
  In "id_card"%string
     ["en_prefix"; "en_firstname"; "en_lastname"; "en_name_raw"]%string
  \/ exists cd td card r1 results b,
       H.CARD_DETECTOR reading_heic_env = Some cd
       /\ H.TEXT_DETECTOR reading_heic_env = Some td
       /\ H.crop_card reading_heic_env cd staged_png w0
          = (Return (Some card, Some r1), w0)
       /\ predict td card (1#4) None = Return results
       /\ In b (boxes results)
       /\ names td (astype_int (cls b)) = "id_card"%string.
Proof.
  assert (Hk : In "id_card"%string (dict_keys [("id_card"%string, lit "123")]))
    by (now left).
  apply (proj1 (@entity_keys_are_detected_labels staged_png output_logs w0
                  (snd (H.run_ocr_pipeline reading_heic_env staged_png output_logs w0))
                  [("id_card"%string, lit "123")] "id_card"%string Hk)
           reading_heic_env).
  reflexivity.
Defined.

(** ** The endpoint: clean-up and exception routing *)





(** X15. With the directories in place, what leaves the EasyOCR endpoint is
    decided in two steps.  When [os.remove] in the [finally] block raises,
    its exception leaves the endpoint, whatever happened before.  When it
    does not: a failure to store the upload is a 500 whose detail is "An
    internal server error occurred: " followed by the message; otherwise the
    endpoint hands on what [run_ocr_pipeline] does, its EntityMap, its
    [HTTPException]s unchanged, and any other exception as such a 500; and
    then no exception other than an [HTTPException] leaves the endpoint. *)
Theorem easyocr_endpoint_routing :
  forall (env : E.Env) (file : UploadFile) (w : world),
    makedirs_error (E.host env) "temp_uploads" = None ->
    makedirs_error (E.host env) "output_logs" = None ->
    let temp_file_path := path_join "temp_uploads" (filename file) in
    (forall msg, os_remove_error (E.host env) temp_file_path = Some msg ->
       fst (E.process_thai_id env file w) = Raise (Exception msg))
    /\
    (os_remove_error (E.host env) temp_file_path = None ->
     (forall msg, open_error (E.host env) temp_file_path = Some msg ->
        fst (E.process_thai_id env file w)
        = Raise (HTTPException 500 ("An internal server error occurred: " ++ msg)))
     /\ (open_error (E.host env) temp_file_path = None ->
         fst (E.process_thai_id env file w)
         = match fst (E.run_ocr_pipeline env temp_file_path "output_logs"
                        (write_file temp_file_path Upload w)) with
           | Return d => Return d
           | Raise (HTTPException c d) => Raise (HTTPException c d)
           | Raise (Exception m) =>
               Raise (HTTPException 500 ("An internal server error occurred: " ++ m))
           end)
     /\ (forall e, fst (E.process_thai_id env file w) = Raise e ->
           exists c d, e = HTTPException c d)).
Proof.
  intros env file w Hm1 Hm2 temp_file_path.
  assert (Heq : E.process_thai_id env file w
                = finally
                    (try_except
                       (guard_error (open_error (E.host env) temp_file_path) ;;;
                        modify (write_file temp_file_path Upload) ;;;
                        extracted_data <-
                          E.run_ocr_pipeline env temp_file_path "output_logs" ;;
                        ret extracted_data)
                       (fun e =>
                          match e with
                          | HTTPException _ _ => raise e
                          | Exception _ =>
                              raise (HTTPException 500
                                       ("An internal server error occurred: "
                                        ++ str_exn e))
                          end))
                    (os_remove (E.host env) temp_file_path) w).
  { unfold E.process_thai_id, bind at 1 2, guard_error at 1 2.
    now rewrite Hm1, Hm2. }
  rewrite Heq. unfold finally, os_remove. split.
  - intros msg Hrm. rewrite Hrm.
    destruct (try_except _ _ w) as [o1 w1]. reflexivity.
  - intros Hrm. rewrite Hrm. unfold try_except, bind.
    split; [|split].
    + intros msg Ho. rewrite Ho. reflexivity.
    + intros Ho. rewrite Ho. cbn [guard_error ret modify].
      destruct (E.run_ocr_pipeline env temp_file_path "output_logs"
                  (write_file temp_file_path Upload w)) as [[d|[c d|m]] w1];
        reflexivity.
    + intros e.
      destruct (open_error (E.host env) temp_file_path) as [msg|].
      * cbn. intros [= <-]. eauto.
      * cbn [guard_error ret modify].
        destruct (E.run_ocr_pipeline env temp_file_path "output_logs"
                    (write_file temp_file_path Upload w)) as [[d|[c d|m]] w1];
          cbn; intros He; try discriminate; injection He as <-; eauto.
Qed.

Lemma easyocr_endpoint_routing_witness :
  fst (E.process_thai_id broken_reader_env card_jpg w0)
  = Raise (HTTPException 500 "An internal server error occurred: CUDA out of memory")
  /\ (exists c d,
        Raise (A := dict pystr)
          (HTTPException 500 "An internal server error occurred: CUDA out of memory")
        = Raise (HTTPException c d))
  /\ fst (E.process_thai_id stuck_upload_env card_jpg w0)
     = Raise (Exception "[Errno 13] Permission denied").
Proof.
  destruct (@easyocr_endpoint_routing broken_reader_env card_jpg w0 eq_refl eq_refl)
    as (_ & Hclean).
  destruct (Hclean eq_refl) as (_ & Hrun & Hhttp).
  split; [|split].
  - rewrite (Hrun eq_refl). reflexivity.
  - destruct (Hhttp (HTTPException 500
                       "An internal server error occurred: CUDA out of memory"))
      as (c & d & Hcd).
    + rewrite (Hrun eq_refl). reflexivity.
    + exists c, d. now rewrite Hcd.
  - apply (proj1 (@easyocr_endpoint_routing stuck_upload_env card_jpg w0
                    eq_refl eq_refl)).
    reflexivity.
Defined.

(** X16. In the pytesseract variant an upload named ["temp_image.png"] is
    stored at the very path the pipeline's temporary image has, so copying it
    there is refused: with the directories in place the request never returns
    an EntityMap, and when [os.remove] in the [finally] block does not raise
    it ends in a 500 whose detail begins "An internal server error
    occurred: ". *)
Theorem heic_temp_image_upload_fails :
  forall (env : H.Env) (w : world),
    makedirs_error (H.host env) "temp_uploads" = None ->
    makedirs_error (H.host env) "output_logs" = None ->
    (forall d, fst (H.process_thai_id env temp_image_png w) <> Return d)
    /\ (os_remove_error (H.host env) (path_join "temp_uploads" "temp_image.png") = None ->
        exists detail,
          fst (H.process_thai_id env temp_image_png w)
          = Raise (HTTPException 500 ("An internal server error occurred: " ++ detail))).
Proof.
  intros env w Hm1 Hm2.
  destruct (H.process_thai_id env temp_image_png w) as [o w'] eqn:HP.
  unfold H.process_thai_id, bind at 1 2, guard_error at 1 2 in HP.
  rewrite Hm1, Hm2 in HP. cbn [ret] in HP. unfold finally in HP.
  destruct (try_except _ _ w) as [o1 w1] eqn:Hbody.
  assert (Ho1 : exists detail,
             o1 = Raise (HTTPException 500
                           ("An internal server error occurred: " ++ detail))).
  { unfold try_except, bind in Hbody. cbn [filename temp_image_png] in Hbody.
    destruct (open_error (H.host env) (path_join "temp_uploads" "temp_image.png"))
      as [msg|].
    - cbn in Hbody. injection Hbody as <- _. exists msg. reflexivity.
    - cbn in Hbody. injection Hbody as <- _. eexists. reflexivity. }
  destruct Ho1 as (detail & ->).
  cbn [filename temp_image_png] in HP. unfold bind, os_remove in HP.
  destruct (os_remove_error (H.host env) (path_join "temp_uploads" "temp_image.png"))
    as [msg|].
  - cbn [raise] in HP. injection HP as <- _.
    split; [intros d; discriminate | discriminate].
  - cbn [modify] in HP. injection HP as <- _.
    split; [intros d; discriminate|]. intros _. now exists detail.
Qed.

Lemma heic_temp_image_upload_fails_witness :
  exists detail,
    fst (H.process_thai_id reading_heic_env temp_image_png w0)
    = Raise (HTTPException 500 ("An internal server error occurred: " ++ detail)).
Proof.
  apply (proj2 (@heic_temp_image_upload_fails reading_heic_env w0 eq_refl eq_refl)).
  reflexivity.
Defined.

(** ** The names of the debug artifacts *)

Lemma string_length_app (a b : string) :
  String.length (a ++ b) = (String.length a + String.length b)%nat.
Proof.
  induction a as [|c a IH]; simpl; [reflexivity | now rewrite IH].
Qed.

Lemma prefix_slash_app (base s1 s2 : string) (c1 c2 : ascii) (t1 t2 : string) :
  s1 = String c1 t1 -> s2 = String c2 t2 -> c1 = c2 ->
  String.prefix "/" (base ++ s1) = String.prefix "/" (base ++ s2).
Proof.
  assert (Hempty : forall t, String.prefix "" t = true) by (intros [|? ?]; reflexivity).
  intros -> -> ->. destruct base as [|c base]; cbn [append String.prefix].
  - destruct (ascii_dec "/" c2); [now rewrite !Hempty | reflexivity].
  - destruct (ascii_dec "/" c); [now rewrite !Hempty | reflexivity].
Qed.

Lemma path_join_length_differs (a base s1 s2 : string) (c : ascii) (t1 t2 : string) :
  s1 = String c t1 -> s2 = String c t2 ->
  String.length s1 <> String.length s2 ->
  path_join a (base ++ s1) <> path_join a (base ++ s2).
Proof.
  intros H1 H2 Hlen Heq. unfold path_join in Heq.
  rewrite (prefix_slash_app base H1 H2 eq_refl) in Heq.
  apply (f_equal String.length) in Heq.
  destruct (String.prefix "/" (base ++ s2));
    [|destruct ((a =? "")%string
               || (substring (String.length a - 1) 1 a =? "/")%string)];
    rewrite ?string_length_app in Heq; simpl in Heq; lia.
Qed.

(** X17. The three debug artifacts of a run have three different paths,
    whatever the image path and the output directory: no one of them
    overwrites another. *)
Theorem debug_artifact_paths_differ :
  forall (image_path output_dir : string),
    card_plot_path image_path output_dir <> text_plot_path image_path output_dir
    /\ card_plot_path image_path output_dir <> json_path image_path output_dir
    /\ text_plot_path image_path output_dir <> json_path image_path output_dir.
Proof.
  intros image_path output_dir.
  unfold card_plot_path, text_plot_path, json_path.
  repeat split;
    eapply path_join_length_differs; try reflexivity; simpl; lia.
Qed.

(** ** How often the OCR backend is called *)




